(** * A cache-aside image proxy in front of an object store

    Shallow embedding of [src/worker.ts]: the request handler
    [handleRequest], its helpers, and the surrounding platform (regular
    expressions, URI coding, dates, the [range-parser] import, the object
    store binding and the outgoing [fetch]).

    JavaScript strings are modelled as Rocq byte strings, numbers that hold
    sizes, offsets and millisecond timestamps as [Z], and a number that may
    be [NaN] as [option Z].  The handler runs in a small monad that records
    every store call and every outgoing request, and that distinguishes an
    early [return] and a thrown exception from normal completion. *)

From Stdlib Require Import ZArith String Ascii List DecimalString Bool Lia.
From stdpp Require Import base option strings gmap.
Import ListNotations.
Open Scope string_scope.
Open Scope Z_scope.

(** ** String primitives of the language *)

Module Str.

(** White space removed by [String.prototype.trim], restricted to code
    units below 256: TAB, LF, VT, FF, CR, SP and NBSP. *)
Definition is_space (c : ascii) : bool :=
  let n := N_of_ascii c in
  ((9 <=? n)%N && (n <=? 13)%N || (n =? 32)%N || (n =? 160)%N).

Fixpoint trimStart (s : string) : string :=
  match s with
  | String c r => if is_space c then trimStart r else s
  | EmptyString => EmptyString
  end.

Fixpoint trimEnd (s : string) : string :=
  match s with
  | String c r =>
      let r' := trimEnd r in
      if is_space c && String.eqb r' "" then "" else String c r'
  | EmptyString => EmptyString
  end.

Definition trim (s : string) : string := trimEnd (trimStart s).

(** [s.substring(1)] *)
Definition substring1 (s : string) : string :=
  match s with
  | String _ r => r
  | EmptyString => EmptyString
  end.

Definition startsWith (s p : string) : bool := String.prefix p s.

(** [s.includes(p)] *)
Fixpoint includes (s p : string) : bool :=
  String.prefix p s ||
  match s with
  | String _ r => includes r p
  | EmptyString => false
  end.

(** [s.split(sep)] for a one-character separator: never the empty list. *)
Fixpoint split (sep : ascii) (s : string) : list string :=
  match s with
  | EmptyString => [""]
  | String c r =>
      if Ascii.eqb c sep then "" :: split sep r
      else match split sep r with
           | h :: t => String c h :: t
           | [] => [String c ""]
           end
  end.

Fixpoint join (sep : string) (l : list string) : string :=
  match l with
  | [] => ""
  | [x] => x
  | x :: r => x +:+ sep +:+ join sep r
  end.

(** The double quote, code unit 34, and a string put between two. *)
Definition dquote : ascii := ascii_of_N 34.

Definition quoted (s : string) : string :=
  String dquote (s +:+ String dquote EmptyString).

Definition is_quote (c : ascii) : bool :=
  Ascii.eqb c "'" || Ascii.eqb c dquote.

(** The replace call of getHeaderEtag, whose pattern is a single or double
    quote anchored at the start, or one anchored at the end, with the
    global flag: it can match at most twice, on a quote in first position
    and on a quote in last position; a one-character string is consumed by
    the first alternative. *)
Fixpoint dropLastQuote (s : string) : string :=
  match s with
  | EmptyString => EmptyString
  | String c EmptyString => if is_quote c then "" else s
  | String c r => String c (dropLastQuote r)
  end.

Definition stripQuotes (s : string) : string :=
  match s with
  | String c r => if is_quote c then dropLastQuote r else dropLastQuote s
  | EmptyString => EmptyString
  end.

(** [n.toString()] and [`${n}`] for an integral number. *)
Definition ofZ (n : Z) : string := NilZero.string_of_int (Z.to_int n).

(** Truthiness of a string and of a possibly absent string. *)
Definition truthy (s : string) : bool := negb (String.eqb s "").

Definition truthy_opt (o : option string) : bool :=
  match o with
  | Some s => truthy s
  | None => false
  end.

End Str.

(** Truthiness of a number: neither [NaN] (here [None]) nor zero. *)
Definition truthy_num (n : option Z) : bool :=
  match n with
  | Some z => negb (z =? 0)
  | None => false
  end.

(** ** Data model *)

(** The parts of a [URL] object the handler reads or writes. *)
Record URL := {
  host : string;
  pathname : string;
  searchParams : list (string * string)
}.

(** [Headers]: lower-cased names, in insertion order. *)
Definition Headers := list (string * string).

(** [headers.get(name)]: the values under [name] joined by a comma and a
    space, [null] when there is none. *)
Definition Headers_get (h : Headers) (name : string) : option string :=
  match filter (fun p => String.eqb (fst p) name) h with
  | [] => None
  | l => Some (Str.join ", " (map snd l))
  end.

(** [headers.delete(name)] *)
Definition Headers_delete (h : Headers) (name : string) : Headers :=
  filter (fun p => negb (String.eqb (fst p) name)) h.

(** [searchParams.has(name)] and [searchParams.get(name)] *)
Definition searchParams_has (q : list (string * string)) (name : string) : bool :=
  existsb (fun p => String.eqb (fst p) name) q.

Definition searchParams_get (q : list (string * string)) (name : string) : option string :=
  match filter (fun p => String.eqb (fst p) name) q with
  | p :: _ => Some (snd p)
  | [] => None
  end.

Inductive RedirectMode := follow | manual.

Record Request := {
  req_url : URL;
  req_method : string;
  req_headers : Headers;
  req_body : option string;
  req_redirect : RedirectMode
}.

Record Response := {
  status : Z;
  resp_body : option string;
  resp_headers : Headers
}.

(** [response.ok] *)
Definition ok (r : Response) : bool := (200 <=? status r) && (status r <=? 299).

(** [type ParsedRange = { offset, length } | { suffix }] *)
Inductive ParsedRange :=
| OffsetLength (offset length : Z)
| Suffix (suffix : Z).

Record R2HTTPMetadata := {
  contentType : option string;
  contentLanguage : option string;
  contentDisposition : option string;
  contentEncoding : option string;
  cacheControl : option string;
  cacheExpiry : option Z
}.

(** [R2Object | R2ObjectBody]: the second is the first with [body] set. *)
Record R2Object := {
  size : Z;
  etag : string;
  httpEtag : string;
  uploaded : Z;
  httpMetadata : option R2HTTPMetadata;
  body : option string
}.

Record R2Conditional := {
  etagMatches : option string;
  etagDoesNotMatch : option string;
  uploadedBefore : option Z;
  uploadedAfter : option Z
}.

Record R2GetOptions := {
  onlyIf : option R2Conditional;
  range : option ParsedRange
}.

(** The two read operations of the bucket binding the handler calls. *)
Record R2Bucket := {
  head : string -> option R2Object;
  get : string -> R2GetOptions -> option R2Object
}.

Record Env := {
  ALLOWED_ORIGINS : option string;
  CACHE_BUCKET : R2Bucket;
  CACHE_CONTROL : option string;
  PARAMS_KEY : string;
  IMAGE_REGEX : string;
  IMAGE_REGEX_POST : string;
  IMAGE_HOST : string
}.

(** The conditional headers as lines 63 to 68 read them: entity-tags
    trimmed and unquoted, dates as the number [Date.parse] returns, the
    If-Range token as sent. *)
Record Conditionals := {
  ifMatch : option string;
  ifNoneMatch : option string;
  ifModifiedSince : option Z;
  ifUnmodifiedSince : option Z;
  ifRange : option string
}.

(** Result of the [range-parser] import: [-1], [-2], or an array of ranges
    carrying the unit in its [type] property. *)
Record ByteRange := { range_start : Z; range_end : Z }.

Inductive Ranges :=
| Unsatisfiable
| Malformed
| RangeArray (type : string) (ranges : list ByteRange).

(** A compiled regular expression: [exec] returns [null] or the match
    array, whose element 0 is the matched substring and whose element [i]
    is capture group [i] ([undefined] when the group did not take part). *)
Record RegExp := { exec : string -> option (list (option string)) }.

(** A platform call either yields a value or throws an error with a message. *)
Inductive Outcome (A : Type) :=
| Value (a : A)
| Raised (message : string).
Arguments Value {A} a.
Arguments Raised {A} message.

(** What the handler takes from the platform and from its one import. *)
Record Runtime := {
  RegExp_new : string -> Outcome RegExp;
  decodeURIComponent : string -> Outcome string;
  encodeURIComponent : string -> string;
  URLSearchParams_toString : list (string * string) -> string;
  Date_parse : string -> option Z;
  Date_toUTCString : Z -> string;
  parseRange : Z -> string -> Ranges;
  fetch : Request -> Outcome Response
}.

(** ** Effects *)

Inductive Event :=
| EvHead (key : string)
| EvGet (key : string) (options : R2GetOptions)
| EvFetch (request : Request)
| EvWaitUntilPut (key : string) (value : option string) (metadata : Headers).

Inductive Completion (A : Type) :=
| Normal (a : A)
| Return (r : Response)
| Throw (message : string).
Arguments Normal {A} a.
Arguments Return {A} r.
Arguments Throw {A} message.

Definition M (A : Type) : Type := list Event * Completion A.

Definition ret {A} (a : A) : M A := ([], Normal a).

Definition bind {A B} (m : M A) (f : A -> M B) : M B :=
  match m with
  | (l, Normal a) => let '(l', c) := f a in ((l ++ l')%list, c)
  | (l, Return r) => (l, Return r)
  | (l, Throw e) => (l, Throw e)
  end.

Declare Scope worker_scope.
Delimit Scope worker_scope with worker.
Bind Scope worker_scope with M.

Notation "x <- m ;; k" := (bind m (fun x => k))
  (at level 100, m at next level, k at level 200, right associativity) : worker_scope.
Notation "m ;; k" := (bind m (fun _ => k))
  (at level 100, k at level 200, right associativity) : worker_scope.

Open Scope worker_scope.

Definition emit (e : Event) : M unit := ([e], Normal tt).

Definition return_ {A} (r : Response) : M A := ([], Return r).

Definition lift {A} (o : Outcome A) : M A :=
  match o with
  | Value a => ([], Normal a)
  | Raised e => ([], Throw e)
  end.

(** [try { body } catch (e) { handler }] *)
Definition try_catch {A} (m : M A) (handler : string -> M A) : M A :=
  match m with
  | (l, Throw e) => let '(l', c) := handler e in ((l ++ l')%list, c)
  | _ => m
  end.

(** ** The handler's module-level helpers (lines 23 to 40)

    The source discriminates the two shapes of a [ParsedRange] by probing
    for a member; here the shapes are constructors, so [hasSuffix] and
    [rangeHasLength] are tests on the constructor and their uses in
    [getRangeHeader] and in the content-length header are pattern
    matches. *)

Definition rangeHasLength (object : ParsedRange) : bool :=
  match object with
  | OffsetLength _ _ => true
  | Suffix _ => false
  end.

Definition hasBody (object : option R2Object) : bool :=
  match object with
  | Some o => match body o with Some _ => true | None => false end
  | None => false
  end.

Definition hasSuffix (range : ParsedRange) : bool :=
  match range with
  | Suffix _ => true
  | OffsetLength _ _ => false
  end.

Definition getRangeHeader (range : ParsedRange) (fileSize : Z) : string :=
  "bytes " +:+
  Str.ofZ (match range with
           | Suffix suffix => fileSize - suffix
           | OffsetLength offset _ => offset
           end) +:+ "-" +:+
  Str.ofZ (match range with
           | Suffix _ => fileSize - 1
           | OffsetLength offset length => offset + length - 1
           end) +:+ "/" +:+ Str.ofZ fileSize.

(** [a || d] on a possibly absent string, and [a ?? d]. *)
Definition or_else (a : option string) (d : string) : string :=
  match a with
  | Some s => if Str.truthy s then s else d
  | None => d
  end.

Definition nullish (a : option string) (d : string) : string :=
  match a with
  | Some s => s
  | None => d
  end.

(** [new Response(body, { status })] and the constructor's copy of a
    request with some members replaced.  [resp_headers] holds the headers
    the handler passes, not those the constructor derives from the body. *)
Definition Response_new (b : option string) (st : Z) : Response :=
  {| status := st; resp_body := b; resp_headers := [] |}.

Definition Request_with_method (r : Request) (m : string) (rd : RedirectMode) : Request :=
  {| req_url := req_url r; req_method := m; req_headers := req_headers r;
     req_body := req_body r; req_redirect := rd |}.

Definition Request_with_headers (r : Request) (h : Headers) : Request :=
  {| req_url := req_url r; req_method := req_method r; req_headers := h;
     req_body := req_body r; req_redirect := req_redirect r |}.

(** [url.host = h] *)
Definition URL_set_host (u : URL) (h : string) : URL :=
  {| host := h; pathname := pathname u; searchParams := searchParams u |}.

(** Line 63: trim, then strip one leading and one trailing quote. *)
Definition getHeaderEtag (header : option string) : option string :=
  match header with
  | Some h => Some (Str.stripQuotes (Str.trim h))
  | None => None
  end.

Definition is_private (file : R2Object) : bool :=
  match httpMetadata file with
  | Some md =>
      match cacheControl md with
      | Some cc => Str.includes cc "private"
      | None => false
      end
  | None => false
  end.

Section Worker.

Context (rt : Runtime).

Definition R2_head (b : R2Bucket) (key : string) : M (option R2Object) :=
  emit (EvHead key);; ret (head b key).

Definition R2_get (b : R2Bucket) (key : string) (o : R2GetOptions) : M (option R2Object) :=
  emit (EvGet key o);; ret (get b key o).

(** [await fetch(r)].  An error raised while the request object is built
    is not told apart from one raised by the call. *)
Definition do_fetch (r : Request) : M Response :=
  emit (EvFetch r);; lift (fetch rt r).

(** Lines 70 and 71: the whitelisted parameters present on the request,
    in whitelist order, each with its first value. *)
Definition whitelisted (env : Env) (url : URL) : list (string * string) :=
  flat_map
    (fun v =>
       if searchParams_has (searchParams url) v
       then [(v, nullish (searchParams_get (searchParams url) v) "")]
       else [])
    (map Str.trim (Str.split "," (PARAMS_KEY env))).

(** Line 73: the key is the matched text followed, when a whitelisted
    parameter is present, by a plus sign and the encoded parameters. *)
Definition paramsSuffix (env : Env) (url : URL) : string :=
  match whitelisted env url with
  | (_ :: _) as params =>
      "+" +:+ encodeURIComponent rt (URLSearchParams_toString rt params)
  | [] => ""
  end.

Definition cacheKey (env : Env) (url : URL) (match_ : string) : string :=
  match_ +:+ paramsSuffix env url.

(** Lines 47 and 48: the array destructuring binds element 0 of the match
    array, [undefined] when [exec] returned [null]. *)
Definition first_of (m : option (list (option string))) : option string :=
  match m with
  | Some (x :: _) => x
  | _ => None
  end.

Definition cacheable_method (m : string) : bool :=
  String.eqb m "GET" || String.eqb m "HEAD" || String.eqb m "POST".

(** Lines 75 to 91: for a GET with a Range header, probe the store and
    resolve the range against the stored size. *)
Definition resolveRange (request : Request) (env : Env) (key : string)
  : M (option R2Object * option ParsedRange) :=
  if String.eqb (req_method request) "GET" then
    match Headers_get (req_headers request) "range" with
    | Some rangeHeader =>
        if Str.truthy rangeHeader then
          file <- R2_head (CACHE_BUCKET env) key;;
          match file with
          | Some f =>
              match parseRange rt (size f) rangeHeader with
              | RangeArray ty [firstRange] =>
                  if String.eqb ty "bytes" then
                    if size f =? range_end firstRange + 1
                    then ret (file, Some (Suffix (size f - range_start firstRange)))
                    else ret (file, Some (OffsetLength (range_start firstRange)
                                 (range_end firstRange - range_start firstRange + 1)))
                  else return_ (Response_new (Some "Range Not Satisfiable") 416)
              | _ => return_ (Response_new (Some "Range Not Satisfiable") 416)
              end
          | None => ret (None, None)
          end
        else ret (None, None)
    | None => ret (None, None)
    end
  else ret (None, None).

(** Lines 94 to 102 *)
Definition applyIfRange (file : option R2Object) (range : option ParsedRange)
    (ifRange : option string) : option ParsedRange :=
  match file, range, ifRange with
  | Some f, Some _, Some token =>
      if Str.truthy token then
        let maybeDate := Date_parse rt token in
        if match maybeDate with
           | None => true
           | Some d => uploaded f <? d
           end
        then
          if Str.startsWith token "W/" || negb (String.eqb token (httpEtag f))
          then None
          else range
        else range
      else range
  | _, _, _ => range
  end.

(** Lines 104 to 114 *)
Definition checkMustMatch (env : Env) (key : string) (ifMatch : option string)
    (ifUnmodifiedSince : option Z) (file : option R2Object)
    (range : option ParsedRange) : M (option R2Object) :=
  if Str.truthy_opt ifMatch || truthy_num ifUnmodifiedSince then
    file' <- R2_get (CACHE_BUCKET env) key
      {| onlyIf := Some {| etagMatches := ifMatch;
                           etagDoesNotMatch := None;
                           uploadedBefore :=
                             if truthy_num ifUnmodifiedSince
                             then ifUnmodifiedSince else None;
                           uploadedAfter := None |};
         range := range |};;
    if negb (hasBody file')
    then return_ (Response_new (Some "Precondition Failed") 412)
    else ret file'
  else ret file.

(** Lines 116 to 124 *)
Definition checkMustNotMatch (env : Env) (key : string) (ifNoneMatch : option string)
    (ifModifiedSince : option Z) (file : option R2Object)
    (range : option ParsedRange) : M (option R2Object) :=
  if Str.truthy_opt ifNoneMatch || truthy_num ifModifiedSince then
    file' <-
      (if Str.truthy_opt ifNoneMatch then
         R2_get (CACHE_BUCKET env) key
           {| onlyIf := Some {| etagMatches := None;
                                etagDoesNotMatch := ifNoneMatch;
                                uploadedBefore := None;
                                uploadedAfter := None |};
              range := range |}
       else
         R2_get (CACHE_BUCKET env) key
           {| onlyIf := Some {| etagMatches := None;
                                etagDoesNotMatch := None;
                                uploadedBefore := None;
                                uploadedAfter := ifModifiedSince |};
              range := range |});;
    if negb (hasBody file')
    then return_ (Response_new None 304)
    else ret file'
  else ret file.

(** Lines 129 and 130: the condition that guards the store response, for
    an object that exists.  The origin is probed only for a private
    object. *)
Definition revalidated (request : Request) (file : R2Object) : M bool :=
  if negb (is_private file) then ret true
  else
    probe <- do_fetch (Request_with_method request "HEAD" manual);;
    let originstatus := status probe in
    ret ((originstatus <? 300) || (originstatus =? 304)).

(** Lines 135 to 153 *)
Definition storeResponse (env : Env) (file : R2Object) (range : option ParsedRange)
  : Response :=
  {| status := match range with Some _ => 206 | None => 200 end;
     resp_body := if hasBody (Some file) && negb (size file =? 0)
                  then body file else None;
     resp_headers :=
       [ ("accept-ranges", "bytes");
         ("access-control-allow-origin", or_else (ALLOWED_ORIGINS env) "");
         ("etag", httpEtag file);
         ("cache-control",
           match httpMetadata file with
           | Some md => match cacheControl md with
                        | Some cc => cc
                        | None => or_else (CACHE_CONTROL env) ""
                        end
           | None => or_else (CACHE_CONTROL env) ""
           end);
         ("expires",
           match httpMetadata file with
           | Some md => match cacheExpiry md with
                        | Some d => Date_toUTCString rt d
                        | None => ""
                        end
           | None => ""
           end);
         ("last-modified", Date_toUTCString rt (uploaded file));
         ("content-encoding",
           nullish (md ← httpMetadata file; contentEncoding md) "");
         ("content-type",
           nullish (md ← httpMetadata file; contentType md) "application/octet-stream");
         ("content-language",
           nullish (md ← httpMetadata file; contentLanguage md) "");
         ("content-disposition",
           nullish (md ← httpMetadata file; contentDisposition md) "");
         ("content-range",
           match range with
           | Some r => getRangeHeader r (size file)
           | None => ""
           end);
         ("content-length",
           Str.ofZ (match range with
                    | Some (OffsetLength _ length) => length
                    | Some (Suffix suffix) => suffix
                    | None => size file
                    end)) ] |}.

(** Lines 155 to 169: the miss.  A thrown [fetch] is caught and answered
    with 521; a successful GET or POST with a body is handed to
    [ctx.waitUntil] to be stored. *)
Definition missResponse (request : Request) (env : Env) (key : string) : M Response :=
  let headers := req_headers request in
  let headers := Headers_delete headers "if-match" in
  let headers := Headers_delete headers "if-none-match" in
  let headers := Headers_delete headers "range" in
  response <- try_catch (do_fetch (Request_with_headers request headers))
               (fun _ => return_ (Response_new None 521));;
  (if (String.eqb (req_method request) "GET" || String.eqb (req_method request) "POST")
      && ok response
      && match resp_body response with Some _ => true | None => false end
   then emit (EvWaitUntilPut key (resp_body response) (resp_headers response))
   else ret tt);;
  ret response.

(** Lines 126 to 173 *)
Definition respond (request : Request) (env : Env) (key : string)
    (file : option R2Object) (range : option ParsedRange) : M Response :=
  file <- match file with
         | Some _ => ret file
         | None => R2_head (CACHE_BUCKET env) key
         end;;
  match file with
  | Some f =>
      pass <- revalidated request f;;
      if pass then
        file' <- (if negb (hasBody file) then
                   got <- R2_get (CACHE_BUCKET env) key
                           {| onlyIf := None; range := range |};;
                   ret (match got with Some g => g | None => f end)
                 else ret f);;
        ret (storeResponse env file' range)
      else return_ (Response_new (Some "Bad Request") 400)
  | None =>
      match range with
      | None => missResponse request env key
      | Some _ => return_ (Response_new (Some "Bad Request") 400)
      end
  end.

(** Lines 43 to 48: both patterns are compiled, the path is decoded and
    its first character dropped, and the pattern chosen by the method is
    run on the result.  The URL is a copy whose host has been replaced. *)
Definition matchPath (request : Request) (env : Env)
  : M (option (list (option string))) :=
  cacheKeyRegex <- lift (RegExp_new rt (IMAGE_REGEX env));;
  cacheKeyRegexPOST <- lift (RegExp_new rt (IMAGE_REGEX_POST env));;
  let url := URL_set_host (req_url request) (IMAGE_HOST env) in
  path <- lift (decodeURIComponent rt (pathname url));;
  ret (exec (if String.eqb (req_method request) "POST"
             then cacheKeyRegexPOST else cacheKeyRegex)
            (Str.substring1 path)).

(** Lines 47 to 50 and 70 to 73: the cache key, or [None] when line 50
    sends the request to the origin. *)
Definition deriveKey (request : Request) (env : Env) : M (option string) :=
  result <- matchPath request env;;
  let url := URL_set_host (req_url request) (IMAGE_HOST env) in
  let match_ := first_of result in
  if negb (cacheable_method (req_method request) && Str.truthy_opt match_)
  then ret None
  else ret (Some (cacheKey env url (nullish match_ ""))).

(** Lines 63 to 68 *)
Definition conditionals (request : Request) : Conditionals :=
  {| ifMatch := getHeaderEtag (Headers_get (req_headers request) "if-match");
     ifNoneMatch := getHeaderEtag (Headers_get (req_headers request) "if-none-match");
     ifModifiedSince :=
       Date_parse rt (or_else (Headers_get (req_headers request) "if-modified-since") "");
     ifUnmodifiedSince :=
       Date_parse rt (or_else (Headers_get (req_headers request) "if-unmodified-since") "");
     ifRange := Headers_get (req_headers request) "if-range" |}.

(** Lines 75 to 102: the range stage. *)
Definition rangePhase (request : Request) (env : Env) (key : string)
    (c : Conditionals) : M (option R2Object * option ParsedRange) :=
  resolved <- resolveRange request env key;;
  ret (fst resolved, applyIfRange (fst resolved) (snd resolved) (ifRange c)).

(** Lines 75 to 114: up to and including the must-match group. *)
Definition mustMatchPhase (request : Request) (env : Env) (key : string)
    (c : Conditionals) : M (option R2Object * option ParsedRange) :=
  resolved <- rangePhase request env key c;;
  file <- checkMustMatch env key (ifMatch c) (ifUnmodifiedSince c)
            (fst resolved) (snd resolved);;
  ret (file, snd resolved).

(** Lines 75 to 124: up to and including the must-not-match group. *)
Definition mustNotMatchPhase (request : Request) (env : Env) (key : string)
    (c : Conditionals) : M (option R2Object * option ParsedRange) :=
  checked <- mustMatchPhase request env key c;;
  file <- checkMustNotMatch env key (ifNoneMatch c) (ifModifiedSince c)
            (fst checked) (snd checked);;
  ret (file, snd checked).

(** Lines 75 to 173: a cacheable request, given its key and its parsed
    conditional headers. *)
Definition serve (request : Request) (env : Env) (key : string)
    (c : Conditionals) : M Response :=
  checked <- mustNotMatchPhase request env key c;;
  respond request env key (fst checked) (snd checked).

(** Lines 42 to 174 *)
Definition handleRequest (request : Request) (env : Env) : M Response :=
  key <- deriveKey request env;;
  match key with
  | None =>
      response <- do_fetch request;;
      return_ response
  | Some key => serve request env key (conditionals request)
  end.

(** Lines 13 to 21: the fetch member of the default export, which turns a
    thrown error into a 500 whose body is the error message.  It returns
    the response together with the effects of the run. *)
Definition default_fetch (request : Request) (env : Env) : list Event * Response :=
  match handleRequest request env with
  | (l, Normal r) => (l, r)
  | (l, Return r) => (l, r)
  | (l, Throw e) => (l, Response_new (Some e) 500)
  end.

End Worker.

(** ** The platform, concretely

    Executable fragments of the platform functions the handler calls.  Each
    agrees with the language on the inputs it accepts; what lies outside a
    fragment is said where it is defined.  The properties of the handler
    are stated over every [Runtime]; these definitions instantiate them. *)

(** *** Regular expressions: a backtracking matcher with capture groups

    The fragment has literal characters, the dot, character classes with
    ranges and negation, the digit and word escapes, escaped punctuation,
    capturing and non-capturing groups, alternation, the greedy
    quantifiers star, plus and question mark, and the two anchors.  Counted
    and lazy repetition, look-around, back-references and flags are
    outside it: [parse] reports them as invalid, which is stricter than
    the language.  Matching is leftmost, alternatives are tried in order,
    repetition is greedy and gives up iterations on backtracking, and a
    repetition clears the captures of its groups at each iteration. *)

Module Regex.

(** Patterns.  [Group n r] is capturing group number [n + 1]. *)
Inductive re :=
| Empty
| Char (c : ascii)
| Any
| Class (negated : bool) (items : list (ascii * ascii))
| Seq (r1 r2 : re)
| Alt (r1 r2 : re)
| Star (r : re)
| Group (n : nat) (r : re)
| Bol
| Eol.

Definition captures := list (option string).

Fixpoint set_capture (n : nat) (v : string) (cs : captures) : captures :=
  match n, cs with
  | O, _ :: t => Some v :: t
  | S n', h :: t => h :: set_capture n' v t
  | _, [] => []
  end.

Fixpoint clear_capture (n : nat) (cs : captures) : captures :=
  match n, cs with
  | O, _ :: t => None :: t
  | S n', h :: t => h :: clear_capture n' t
  | _, [] => []
  end.

(** Indices of the groups of a pattern, and their number in a whole
    pattern, where they are numbered from 0 in the order they open. *)
Fixpoint group_ids (r : re) : list nat :=
  match r with
  | Seq r1 r2 | Alt r1 r2 => (group_ids r1 ++ group_ids r2)%list
  | Star r1 => group_ids r1
  | Group n r1 => n :: group_ids r1
  | _ => []
  end.

Definition groups (r : re) : nat := fold_right (fun n m => Nat.max (S n) m) 0%nat (group_ids r).

Definition in_item (x : ascii) (it : ascii * ascii) : bool :=
  (N_of_ascii (fst it) <=? N_of_ascii x)%N && (N_of_ascii x <=? N_of_ascii (snd it))%N.

Definition is_line_terminator (x : ascii) : bool :=
  (N_of_ascii x =? 10)%N || (N_of_ascii x =? 13)%N.

(** Consume one character that satisfies [ok]. *)
Definition step_char (ok : ascii -> bool) {R} (i : nat) (s : list ascii)
    (k : nat -> list ascii -> option R) : option R :=
  match s with
  | x :: s' => if ok x then k (S i) s' else None
  | [] => None
  end.

(** [run r i s cs k] matches [r] at index [i], where [s] is the text from
    [i] on and [cs] the captures so far, and hands the index, the rest of
    the text and the captures to the continuation [k]; [None] makes the
    caller try its next choice.  An iteration of a star has to consume
    text, which also bounds the number of iterations by the length. *)
Fixpoint run (r : re) (i : nat) (s : list ascii) (cs : captures)
    (k : nat -> list ascii -> captures -> option (nat * captures))
    {struct r} : option (nat * captures) :=
  match r with
  | Empty => k i s cs
  | Char c => step_char (Ascii.eqb c) i s (fun i' s' => k i' s' cs)
  | Any => step_char (fun x => negb (is_line_terminator x)) i s (fun i' s' => k i' s' cs)
  | Class neg items =>
      step_char (fun x => xorb neg (existsb (in_item x) items)) i s
                (fun i' s' => k i' s' cs)
  | Seq r1 r2 => run r1 i s cs (fun i' s' cs' => run r2 i' s' cs' k)
  | Alt r1 r2 =>
      match run r1 i s cs k with
      | Some x => Some x
      | None => run r2 i s cs k
      end
  | Star r1 =>
      (fix loop (fuel : nat) (i : nat) (s : list ascii) (cs : captures)
         {struct fuel} : option (nat * captures) :=
         match fuel with
         | O => k i s cs
         | S fuel' =>
             match run r1 i s (fold_right clear_capture cs (group_ids r1))
                     (fun i' s' cs' =>
                        if (i <? i')%nat then loop fuel' i' s' cs' else None) with
             | Some x => Some x
             | None => k i s cs
             end
         end) (S (length s)) i s cs
  | Group n r1 =>
      run r1 i s cs
          (fun i' s' cs' =>
             k i' s' (set_capture n (string_of_list_ascii (firstn (i' - i) s)) cs'))
  | Bol => if (i =? 0)%nat then k i s cs else None
  | Eol => match s with [] => k i s cs | _ :: _ => None end
  end.

(** Leftmost match: try every start position in turn.  The result is the
    match array: the matched text, then one entry per group. *)
Fixpoint search (r : re) (i : nat) (s : list ascii) : option (list (option string)) :=
  match run r i s (repeat None (groups r)) (fun i' _ cs => Some (i', cs)) with
  | Some (e, cs) => Some (Some (string_of_list_ascii (firstn (e - i) s)) :: cs)
  | None =>
      match s with
      | _ :: s' => search r (S i) s'
      | [] => None
      end
  end.

Definition exec (r : re) (s : string) : option (list (option string)) :=
  search r 0 (list_ascii_of_string s).

(** Pattern syntax: a recursive-descent parser over the characters of the
    source, with the number of groups opened so far. *)

Definition digit_items : list (ascii * ascii) := [("0", "9")]%char.
Definition word_items : list (ascii * ascii) :=
  [("0", "9"); ("A", "Z"); ("_", "_"); ("a", "z")]%char.

Definition is_alnum (c : ascii) : bool :=
  existsb (in_item c) [("0", "9"); ("A", "Z"); ("a", "z")]%char.

Definition quantify (r : re) (s : list ascii) : re * list ascii :=
  match s with
  | "*"%char :: s' => (Star r, s')
  | "+"%char :: s' => (Seq r (Star r), s')
  | "?"%char :: s' => (Alt r Empty, s')
  | _ => (r, s)
  end.

(** Items of a character class up to the closing bracket. *)
Fixpoint parse_class (fuel : nat) (s : list ascii) (acc : list (ascii * ascii))
  : option (list (ascii * ascii) * list ascii) :=
  match fuel with
  | O => None
  | S fuel' =>
      match s with
      | "]"%char :: s' => Some (rev acc, s')
      | "\"%char :: "d"%char :: s' => parse_class fuel' s' (rev digit_items ++ acc)%list
      | "\"%char :: "w"%char :: s' => parse_class fuel' s' (rev word_items ++ acc)%list
      | "\"%char :: c :: s' =>
          if is_alnum c then None else parse_class fuel' s' ((c, c) :: acc)
      | a :: "-"%char :: "]"%char :: s' => Some (rev (("-", "-")%char :: (a, a) :: acc), s')
      | a :: "-"%char :: b :: s' =>
          if Ascii.eqb b "\" || (N_of_ascii b <? N_of_ascii a)%N then None
          else parse_class fuel' s' ((a, b) :: acc)
      | a :: s' => parse_class fuel' s' ((a, a) :: acc)
      | [] => None
      end
  end.

Fixpoint parse_alt (fuel : nat) (s : list ascii) (n : nat) {struct fuel}
  : option (re * list ascii * nat) :=
  match fuel with
  | O => None
  | S fuel' =>
      match parse_seq fuel' s n with
      | Some (r1, "|"%char :: s1, n1) =>
          match parse_alt fuel' s1 n1 with
          | Some (r2, s2, n2) => Some (Alt r1 r2, s2, n2)
          | None => None
          end
      | other => other
      end
  end
with parse_seq (fuel : nat) (s : list ascii) (n : nat) {struct fuel}
  : option (re * list ascii * nat) :=
  match fuel with
  | O => None
  | S fuel' =>
      match s with
      | [] | "|"%char :: _ | ")"%char :: _ => Some (Empty, s, n)
      | _ =>
          match parse_atom fuel' s n with
          | Some (a, s1, n1) =>
              let '(a', s2) := quantify a s1 in
              match parse_seq fuel' s2 n1 with
              | Some (Empty, s3, n3) => Some (a', s3, n3)
              | Some (r, s3, n3) => Some (Seq a' r, s3, n3)
              | None => None
              end
          | None => None
          end
      end
  end
with parse_atom (fuel : nat) (s : list ascii) (n : nat) {struct fuel}
  : option (re * list ascii * nat) :=
  match fuel with
  | O => None
  | S fuel' =>
      match s with
      | "("%char :: "?"%char :: ":"%char :: s1 =>
          match parse_alt fuel' s1 n with
          | Some (r, ")"%char :: s2, n2) => Some (r, s2, n2)
          | _ => None
          end
      | "("%char :: "?"%char :: _ => None
      | "("%char :: s1 =>
          match parse_alt fuel' s1 (S n) with
          | Some (r, ")"%char :: s2, n2) => Some (Group n r, s2, n2)
          | _ => None
          end
      | "["%char :: "^"%char :: s1 =>
          match parse_class fuel' s1 [] with
          | Some (items, s2) => Some (Class true items, s2, n)
          | None => None
          end
      | "["%char :: s1 =>
          match parse_class fuel' s1 [] with
          | Some (items, s2) => Some (Class false items, s2, n)
          | None => None
          end
      | "."%char :: s1 => Some (Any, s1, n)
      | "^"%char :: s1 => Some (Bol, s1, n)
      | "$"%char :: s1 => Some (Eol, s1, n)
      | "\"%char :: "d"%char :: s1 => Some (Class false digit_items, s1, n)
      | "\"%char :: "w"%char :: s1 => Some (Class false word_items, s1, n)
      | "\"%char :: c :: s1 => if is_alnum c then None else Some (Char c, s1, n)
      | "\"%char :: [] => None
      | "*"%char :: _ | "+"%char :: _ | "?"%char :: _ | "{"%char :: _ => None
      | c :: s1 => Some (Char c, s1, n)
      | [] => None
      end
  end.

Definition parse (src : string) : option re :=
  let s := list_ascii_of_string src in
  match parse_alt (4 * length s + 4)%nat s 0 with
  | Some (r, [], _) => Some r
  | _ => None
  end.

End Regex.

(** *** URI coding and query serialization

    [encodeURIComponent] and the serializer of [URLSearchParams] are exact
    on strings of code units below 256; [decodeURIComponent] is a fragment,
    described at its definition. *)

Module URI.

Definition hex_digit (n : N) : ascii :=
  if (n <? 10)%N then ascii_of_N (48 + n) else ascii_of_N (55 + n).

(** [%XX] for a byte, in upper-case hexadecimal. *)
Definition escape (b : N) : string :=
  String "%" (String (hex_digit (b / 16)) (String (hex_digit (b mod 16)) EmptyString)).

(** The UTF-8 bytes of a code unit below 256, each escaped. *)
Definition escape_utf8 (c : ascii) : string :=
  let n := N_of_ascii c in
  if (n <? 128)%N then escape n
  else escape (192 + n / 64) +:+ escape (128 + n mod 64).

Definition between (lo hi c : ascii) : bool :=
  (N_of_ascii lo <=? N_of_ascii c)%N && (N_of_ascii c <=? N_of_ascii hi)%N.

Definition is_alnum (c : ascii) : bool :=
  between "0" "9" c || between "A" "Z" c || between "a" "z" c.

Definition one_of (set : string) (c : ascii) : bool :=
  existsb (Ascii.eqb c) (list_ascii_of_string set).

Fixpoint encodeURIComponent (s : string) : string :=
  match s with
  | EmptyString => EmptyString
  | String c r =>
      (if is_alnum c || one_of "-_.!~*'()" c
       then String c EmptyString else escape_utf8 c) +:+ encodeURIComponent r
  end.

(** The application/x-www-form-urlencoded byte serializer. *)
Fixpoint form_encode (s : string) : string :=
  match s with
  | EmptyString => EmptyString
  | String c r =>
      (if is_alnum c || one_of "*-._" c then String c EmptyString
       else if Ascii.eqb c " " then "+"
       else escape_utf8 c) +:+ form_encode r
  end.

Fixpoint join_amp (l : list string) : string :=
  match l with
  | [] => ""
  | [x] => x
  | x :: r => x +:+ "&" +:+ join_amp r
  end.

Definition URLSearchParams_toString (params : list (string * string)) : string :=
  join_amp (map (fun p => form_encode (fst p) +:+ "=" +:+ form_encode (snd p)) params).

Definition hex_value (c : ascii) : option N :=
  if between "0" "9" c then Some (N_of_ascii c - 48)%N
  else if between "A" "F" c then Some (N_of_ascii c - 55)%N
  else if between "a" "f" c then Some (N_of_ascii c - 87)%N
  else None.

Definition escaped_byte (h l : ascii) : option N :=
  match hex_value h, hex_value l with
  | Some a, Some b => Some (16 * a + b)%N
  | _, _ => None
  end.

(** [decodeURIComponent] on byte strings.  An escape below [%80] is one
    character; [%C2] and [%C3] open the two-byte sequences of U+0080 to
    U+00FF.  Longer sequences denote characters that a byte string cannot
    hold and are reported like malformed input. *)
Fixpoint decode (fuel : nat) (s : string) : option string :=
  match fuel with
  | O => None
  | S fuel' =>
      match s with
      | EmptyString => Some EmptyString
      | String "%" (String h (String l r)) =>
          match escaped_byte h l with
          | Some b =>
              if (b <? 128)%N then option_map (String (ascii_of_N b)) (decode fuel' r)
              else if (b =? 194)%N || (b =? 195)%N then
                match r with
                | String "%" (String h2 (String l2 r2)) =>
                    match escaped_byte h2 l2 with
                    | Some b2 =>
                        if (128 <=? b2)%N && (b2 <? 192)%N
                        then option_map (String (ascii_of_N ((b - 192) * 64 + (b2 - 128))))
                                        (decode fuel' r2)
                        else None
                    | None => None
                    end
                | _ => None
                end
              else None
          | None => None
          end
      | String "%" _ => None
      | String c r => option_map (String c) (decode fuel' r)
      end
  end.

Definition decodeURIComponent (s : string) : Outcome string :=
  match decode (S (String.length s)) s with
  | Some d => Value d
  | None => Raised "URI malformed"
  end.

End URI.

(** *** HTTP dates *)

Module HttpDate.

Definition days_from_civil (y m d : Z) : Z :=
  let y' := if m <=? 2 then y - 1 else y in
  let era := y' / 400 in
  let yoe := y' - era * 400 in
  let doy := (153 * (if 2 <? m then m - 3 else m + 9) + 2) / 5 + d - 1 in
  let doe := yoe * 365 + yoe / 4 - yoe / 100 + doy in
  era * 146097 + doe - 719468.

Definition civil_from_days (z : Z) : Z * Z * Z :=
  let z := z + 719468 in
  let era := z / 146097 in
  let doe := z - era * 146097 in
  let yoe := (doe - doe / 1460 + doe / 36524 - doe / 146096) / 365 in
  let doy := doe - (365 * yoe + yoe / 4 - yoe / 100) in
  let mp := (5 * doy + 2) / 153 in
  let d := doy - (153 * mp + 2) / 5 + 1 in
  let m := if mp <? 10 then mp + 3 else mp - 9 in
  (yoe + era * 400 + (if m <=? 2 then 1 else 0), m, d).

Definition month_names : list string :=
  ["Jan"; "Feb"; "Mar"; "Apr"; "May"; "Jun"; "Jul"; "Aug"; "Sep"; "Oct"; "Nov"; "Dec"].

Definition day_names : list string :=
  ["Sun"; "Mon"; "Tue"; "Wed"; "Thu"; "Fri"; "Sat"].

Fixpoint index_of (x : string) (l : list string) (i : Z) : option Z :=
  match l with
  | [] => None
  | y :: r => if String.eqb x y then Some i else index_of x r (i + 1)
  end.

Definition digit (c : ascii) : option Z :=
  let n := Z.of_N (N_of_ascii c) in
  if (48 <=? n) && (n <=? 57) then Some (n - 48) else None.

Fixpoint number (s : string) (acc : Z) : option Z :=
  match s with
  | EmptyString => Some acc
  | String c r =>
      match digit c with
      | Some d => number r (10 * acc + d)
      | None => None
      end
  end.

Definition field (s : string) (from len : nat) : option Z :=
  let f := substring from len s in
  if (String.length f =? len)%nat then number f 0 else None.

Definition days_in_month (y m : Z) : Z :=
  days_from_civil (if m =? 12 then y + 1 else y) (if m =? 12 then 1 else m + 1) 1
  - days_from_civil y m 1.

(** [Date.parse] on the fixed-length date format of HTTP,
    such as Sun, 06 Nov 1994 08:49:37 GMT; [None] is [NaN].  The day
    name is not compared with the date.  Hosts accept further formats;
    this fragment answers [NaN] for all of them. *)
Definition parse (s : string) : option Z :=
  if negb (String.length s =? 29)%nat then None else
  match index_of (substring 0 3 s) day_names 0,
        field s 5 2, index_of (substring 8 3 s) month_names 1,
        field s 12 4, field s 17 2, field s 20 2, field s 23 2 with
  | Some _, Some d, Some m, Some y, Some hh, Some mm, Some ss =>
      if String.eqb (substring 3 2 s) ", " && String.eqb (substring 7 1 s) " "
         && String.eqb (substring 11 1 s) " " && String.eqb (substring 16 1 s) " "
         && String.eqb (substring 19 1 s) ":" && String.eqb (substring 22 1 s) ":"
         && String.eqb (substring 25 4 s) " GMT"
         && (1 <=? d) && (d <=? days_in_month y m)
         && (hh <=? 23) && (mm <=? 59) && (ss <=? 59)
      then Some ((((days_from_civil y m d * 24 + hh) * 60 + mm) * 60 + ss) * 1000)
      else None
  | _, _, _, _, _, _, _ => None
  end.

Definition two (n : Z) : string :=
  (if n <? 10 then "0" else "") +:+ NilZero.string_of_int (Z.to_int n).

Definition four (n : Z) : string :=
  (if n <? 10 then "000" else if n <? 100 then "00" else if n <? 1000 then "0" else "")
  +:+ NilZero.string_of_int (Z.to_int n).

(** [toUTCString] for a time value in the years 0 to 9999. *)
Definition toUTCString (t : Z) : string :=
  let secs := t / 1000 in
  let days := secs / 86400 in
  let rem := secs mod 86400 in
  let '(y, m, d) := civil_from_days days in
  nth (Z.to_nat ((days + 4) mod 7)) day_names "" +:+ ", " +:+ two d +:+ " "
  +:+ nth (Z.to_nat (m - 1)) month_names "" +:+ " " +:+ four y +:+ " "
  +:+ two (rem / 3600) +:+ ":" +:+ two (rem mod 3600 / 60) +:+ ":" +:+ two (rem mod 60)
  +:+ " GMT".

End HttpDate.

(** *** The [range-parser] package, version 1.2

    The function the handler imports as [parseRange], called without
    options: the text before the first equals sign is the unit, the rest is
    split at commas, each piece at hyphens, and a piece that does not give
    a range within the size is skipped. *)

Module RangeParser.

(** Leading decimal digits of [s]: their value and how many there are. *)
Fixpoint digits (s : string) (acc : Z) (count : nat) : Z * nat :=
  match s with
  | String c r =>
      match HttpDate.digit c with
      | Some d => digits r (10 * acc + d) (S count)
      | None => (acc, count)
      end
  | EmptyString => (acc, count)
  end.

(** [parseInt(s, 10)]; [None] is [NaN]. *)
Definition parseInt (s : string) : option Z :=
  let s := Str.trimStart s in
  let '(sign, s) :=
    match s with
    | String "-" r => (-1, r)
    | String "+" r => (1, r)
    | _ => (1, s)
    end in
  match digits s 0 0 with
  | (_, O) => None
  | (v, _) => Some (sign * v)
  end.

(** [str.indexOf("=")], as the text before and the text after it. *)
Fixpoint cut (s : string) : option (string * string) :=
  match s with
  | EmptyString => None
  | String c r =>
      if Ascii.eqb c "=" then Some (EmptyString, r)
      else match cut r with
           | Some (a, b) => Some (String c a, b)
           | None => None
           end
  end.

Definition one (size : Z) (spec : string) : list ByteRange :=
  let parts := Str.split "-" spec in
  let start := parseInt (nth 0 parts "") in
  let end_ := match parts with _ :: e :: _ => parseInt e | _ => None end in
  let '(start, end_) :=
    match start, end_ with
    | None, Some e => (Some (size - e), Some (size - 1))
    | None, None => (None, Some (size - 1))
    | Some _, None => (start, Some (size - 1))
    | Some _, Some _ => (start, end_)
    end in
  let end_ :=
    match end_ with
    | Some e => if size - 1 <? e then Some (size - 1) else end_
    | None => None
    end in
  match start, end_ with
  | Some s, Some e =>
      if (e <? s) || (s <? 0) then []
      else [{| range_start := s; range_end := e |}]
  | _, _ => []
  end.

Definition parseRange (size : Z) (str : string) : Ranges :=
  match cut str with
  | None => Malformed
  | Some (type, rest) =>
      match flat_map (one size) (Str.split "," rest) with
      | [] => Unsatisfiable
      | ranges => RangeArray type ranges
      end
  end.

End RangeParser.

(** *** A reference bucket

    Modelled from the spec: the object store contract (head, and get with
    a range and onlyIf conditions), an external collaborator with no source
    of its own.  This bucket keeps its objects in a finite map, each with
    its whole content as [body].  [head] answers with the metadata alone;
    [get] answers [None] for an absent key, the metadata alone when a
    condition of [onlyIf] fails, and otherwise the metadata with the
    requested window of the content.  Every condition that is given has to
    hold.  The properties of the handler are stated over every bucket and
    take the answers of the store as hypotheses; this one instantiates
    them. *)

Module R2.

Definition slice (range : option ParsedRange) (content : string) : string :=
  match range with
  | None => content
  | Some (OffsetLength offset length) =>
      substring (Z.to_nat offset) (Z.to_nat length) content
  | Some (Suffix suffix) =>
      substring (String.length content - Z.to_nat suffix) (Z.to_nat suffix) content
  end.

Definition holds (c : R2Conditional) (o : R2Object) : bool :=
  match etagMatches c with Some e => String.eqb e (etag o) | None => true end
  && match etagDoesNotMatch c with Some e => negb (String.eqb e (etag o)) | None => true end
  && match uploadedBefore c with Some d => uploaded o <? d | None => true end
  && match uploadedAfter c with Some d => d <? uploaded o | None => true end.

Definition with_body (o : R2Object) (b : option string) : R2Object :=
  {| size := size o; etag := etag o; httpEtag := httpEtag o; uploaded := uploaded o;
     httpMetadata := httpMetadata o; body := b |}.

Definition bucket (objects : gmap string R2Object) : R2Bucket :=
  {| head := fun key =>
       match objects !! key with
       | Some o => Some (with_body o None)
       | None => None
       end;
     get := fun key options =>
       match objects !! key with
       | Some o =>
           if match onlyIf options with Some c => holds c o | None => true end
           then Some (with_body o (option_map (slice (range options)) (body o)))
           else Some (with_body o None)
       | None => None
       end |}.

End R2.

(** The runtime assembled from the fragments above, over a given origin. *)
Definition runtime (origin : Request -> Outcome Response) : Runtime :=
  {| RegExp_new := fun src =>
       match Regex.parse src with
       | Some r => Value {| exec := Regex.exec r |}
       | None => Raised ("Invalid regular expression: /" +:+ src +:+ "/")
       end;
     decodeURIComponent := URI.decodeURIComponent;
     encodeURIComponent := URI.encodeURIComponent;
     URLSearchParams_toString := URI.URLSearchParams_toString;
     Date_parse := HttpDate.parse;
     Date_toUTCString := HttpDate.toUTCString;
     parseRange := RangeParser.parseRange;
     fetch := origin |}.

(** ** A deployment used in the examples *)

Module Sample.

Definition png : R2HTTPMetadata :=
  {| contentType := Some "image/png"; contentLanguage := None;
     contentDisposition := None; contentEncoding := None;
     cacheControl := Some "public, max-age=86400"; cacheExpiry := None |}.

Definition private_png : R2HTTPMetadata :=
  {| contentType := Some "image/png"; contentLanguage := None;
     contentDisposition := None; contentEncoding := None;
     cacheControl := Some "private, max-age=60"; cacheExpiry := None |}.

(** Uploaded on Wed, 21 Oct 2015 at 07:28:00.250 GMT. *)
Definition thumb : R2Object :=
  {| size := 10; etag := "abc123"; httpEtag := Str.quoted "abc123";
     uploaded := 1445412480250; httpMetadata := Some png;
     body := Some "0123456789" |}.

Definition secret : R2Object :=
  {| size := 4; etag := "f00d"; httpEtag := Str.quoted "f00d";
     uploaded := 1445412480250; httpMetadata := Some private_png;
     body := Some "wxyz" |}.

Definition objects : gmap string R2Object :=
  <["api/assets/12ab/thumbnail" := thumb]>
    (<["api/assets/77ff/thumbnail" := secret]> ∅).

Definition env : Env :=
  {| ALLOWED_ORIGINS := Some "*";
     CACHE_BUCKET := R2.bucket objects;
     CACHE_CONTROL := Some "public, max-age=3600";
     PARAMS_KEY := "size, key";
     IMAGE_REGEX := "^api/assets/([0-9a-f-]+)/thumbnail$";
     IMAGE_REGEX_POST := "^api/search/(.+)$";
     IMAGE_HOST := "immich.internal" |}.

(** An origin that answers every HEAD with an empty 200 and every other
    request with a 200 carrying five bytes. *)
Definition origin (r : Request) : Outcome Response :=
  if String.eqb (req_method r) "HEAD"
  then Value {| status := 200; resp_body := None;
                resp_headers := [("content-type", "image/png")] |}
  else Value {| status := 200; resp_body := Some "IMAGE";
                resp_headers := [("content-type", "image/png")] |}.

Definition rt : Runtime := runtime origin.

Definition request (method path : string) (headers : Headers) : Request :=
  {| req_url := {| host := "cdn.example.com"; pathname := path; searchParams := [] |};
     req_method := method; req_headers := headers; req_body := None;
     req_redirect := follow |}.

Definition thumb_key : string := "api/assets/12ab/thumbnail".

(** A path neither pattern matches. *)
Definition bypassed : Request := request "GET" "/favicon.ico" [].

Definition cached : Request := request "GET" "/api/assets/12ab/thumbnail" [].

(** A range asked of an object the store does not hold. *)
Definition uncached_ranged : Request :=
  request "GET" "/api/assets/99ee/thumbnail" [("range", "bytes=0-3")].

Definition two_ranges : Request :=
  request "GET" "/api/assets/12ab/thumbnail" [("range", "bytes=0-1,5-6")].

Definition stale_if_match : Request :=
  request "GET" "/api/assets/12ab/thumbnail" [("if-match", Str.quoted "0ld")].

Definition weak_if_match : Request :=
  request "GET" "/api/assets/12ab/thumbnail" [("if-match", "W/" +:+ Str.quoted "abc123")].

Definition two_if_none_match : Request :=
  request "GET" "/api/assets/12ab/thumbnail"
    [("if-none-match", Str.quoted "abc123" +:+ ", " +:+ Str.quoted "0ld")].

(** The entity-tag is current; the date is older than the upload. *)
Definition current_etag_old_date : Request :=
  request "GET" "/api/assets/12ab/thumbnail"
    [("if-none-match", Str.quoted "abc123");
     ("if-modified-since", "Thu, 01 Jan 2015 00:00:00 GMT")].

Definition private_get : Request := request "GET" "/api/assets/77ff/thumbnail" [].

Definition older : string := "Thu, 01 Jan 2015 00:00:00 GMT".
Definition newer : string := "Sun, 01 Jan 2017 00:00:00 GMT".

Definition ranged_if_range (token : string) : Request :=
  request "GET" "/api/assets/12ab/thumbnail"
    [("range", "bytes=2-5"); ("if-range", token)].

End Sample.

(** ** Vocabulary of the statements *)

(** The conditional headers with one date replaced. *)
Definition with_ifModifiedSince (c : Conditionals) (d : option Z) : Conditionals :=
  {| ifMatch := ifMatch c; ifNoneMatch := ifNoneMatch c; ifModifiedSince := d;
     ifUnmodifiedSince := ifUnmodifiedSince c; ifRange := ifRange c |}.

Definition with_ifUnmodifiedSince (c : Conditionals) (d : option Z) : Conditionals :=
  {| ifMatch := ifMatch c; ifNoneMatch := ifNoneMatch c;
     ifModifiedSince := ifModifiedSince c; ifUnmodifiedSince := d;
     ifRange := ifRange c |}.

(** A store read whose condition carries a date carries a non-zero one,
    the number parsed from the matching header of [request]. *)
Definition dated_reads_from_headers (rt : Runtime) (request : Request) (e : Event) : Prop :=
  match e with
  | EvGet _ {| onlyIf := Some cnd |} =>
      (uploadedAfter cnd = None \/
       uploadedAfter cnd = ifModifiedSince (conditionals rt request)
       /\ truthy_num (uploadedAfter cnd) = true)
      /\ (uploadedBefore cnd = None \/
          uploadedBefore cnd = ifUnmodifiedSince (conditionals rt request)
          /\ truthy_num (uploadedBefore cnd) = true)
  | _ => True
  end.

(** The options of the two conditional reads, as lines 105 to 110 and line
    119 build them. *)
Definition must_match_options (c : Conditionals) (range : option ParsedRange)
  : R2GetOptions :=
  {| onlyIf := Some {| etagMatches := ifMatch c; etagDoesNotMatch := None;
                       uploadedBefore :=
                         if truthy_num (ifUnmodifiedSince c)
                         then ifUnmodifiedSince c else None;
                       uploadedAfter := None |};
     range := range |}.

Definition none_match_options (c : Conditionals) (range : option ParsedRange)
  : R2GetOptions :=
  {| onlyIf := Some {| etagMatches := None; etagDoesNotMatch := ifNoneMatch c;
                       uploadedBefore := None; uploadedAfter := None |};
     range := range |}.

Definition modified_since_options (c : Conditionals) (range : option ParsedRange)
  : R2GetOptions :=
  {| onlyIf := Some {| etagMatches := None; etagDoesNotMatch := None;
                       uploadedBefore := None; uploadedAfter := ifModifiedSince c |};
     range := range |}.

Definition plain_options (range : option ParsedRange) : R2GetOptions :=
  {| onlyIf := None; range := range |}.

(** The HEAD probe of line 130. *)
Definition probe (request : Request) : Request :=
  Request_with_method request "HEAD" manual.

(** A parse result that line 81 rejects: [-1], [-2], an array that does not
    hold exactly one range, or a unit other than bytes. *)
Definition rejected (p : Ranges) : Prop :=
  match p with
  | Unsatisfiable | Malformed => True
  | RangeArray type ranges =>
      (1 < length ranges)%nat \/ type <> "bytes" \/ ranges = []
  end.

(** The object whose content is served: the one in hand when it has a
    body, else the result of the plain read, else the one in hand. *)
Definition served_object (env : Env) (key : string) (f : R2Object)
    (range : option ParsedRange) : R2Object :=
  if hasBody (Some f) then f
  else match get (CACHE_BUCKET env) key (plain_options range) with
       | Some g => g
       | None => f
       end.

(** What line 169 hands to [ctx.waitUntil] for the response of a miss. *)
Definition populate (request : Request) (key : string) (response : Response)
  : list Event :=
  if (String.eqb (req_method request) "GET" || String.eqb (req_method request) "POST")
     && ok response
     && match resp_body response with Some _ => true | None => false end
  then [EvWaitUntilPut key (resp_body response) (resp_headers response)]
  else [].

(** The request of line 162: the incoming one without its if-match,
    if-none-match and range headers. *)
Definition stripped (request : Request) : Request :=
  Request_with_headers request
    (Headers_delete
       (Headers_delete (Headers_delete (req_headers request) "if-match")
                       "if-none-match") "range").

(** A request the handler sends to the origin is the incoming request,
    its HEAD probe, or its copy without the three headers. *)
Definition forwards_of (request : Request) (e : Event) : Prop :=
  match e with
  | EvFetch q => q = request \/ q = probe request \/ q = stripped request
  | _ => True
  end.

(** The requests of a log, in order. *)
Definition fetched (l : list Event) : list Request :=
  flat_map (fun e => match e with EvFetch q => [q] | _ => [] end) l.

(** The readings compared with the handler below.  Each keeps the
    hypotheses under which the handler is analysed and states the outcome
    in the words of the specification. *)

(** A range asked of an absent object is answered 400 and nothing is sent
    to the origin. *)
Definition absent_with_range_is_400 (rt : Runtime) (request : Request) (env : Env) : Prop :=
  forall key rangeHeader,
    deriveKey rt request env = ([], Normal (Some key)) ->
    Headers_get (req_headers request) "range" = Some rangeHeader ->
    head (CACHE_BUCKET env) key = None ->
    (forall o, get (CACHE_BUCKET env) key o = None) ->
    status (snd (default_fetch rt request env)) = 400
    /\ fetched (fst (default_fetch rt request env)) = [].

(** A Range header that parses to more than one range, to a unit other
    than bytes, or that cannot be satisfied for the size of the stored
    object, is answered 416, whatever the method of the request. *)
Definition rejected_range_is_416_for_every_request (rt : Runtime) (request : Request)
    (env : Env) : Prop :=
  forall key rangeHeader f,
    deriveKey rt request env = ([], Normal (Some key)) ->
    Headers_get (req_headers request) "range" = Some rangeHeader ->
    rangeHeader <> "" ->
    head (CACHE_BUCKET env) key = Some f ->
    rejected (parseRange rt (size f) rangeHeader) ->
    status (snd (default_fetch rt request env)) = 416.

(** A failed If-Match is answered 412 with an empty body. *)
Definition failed_if_match_is_empty_412 (rt : Runtime) (request : Request) (env : Env)
  : Prop :=
  forall key l file range,
    deriveKey rt request env = ([], Normal (Some key)) ->
    rangePhase rt request env key (conditionals rt request) = (l, Normal (file, range)) ->
    Str.truthy_opt (ifMatch (conditionals rt request)) = true ->
    hasBody (get (CACHE_BUCKET env) key
               (must_match_options (conditionals rt request) range)) = false ->
    status (snd (default_fetch rt request env)) = 412
    /\ resp_body (snd (default_fetch rt request env)) = None.

(** The reading of the key derivation in which the first capture group
    anchors the key: element 1 of the match array, followed by the encoded
    parameters.  The handler is compared with it below. *)
Definition key_from_first_group (rt : Runtime) (request : Request) (env : Env) : Prop :=
  forall arr,
    cacheable_method (req_method request) = true ->
    matchPath rt request env = ([], Normal (Some arr)) ->
    exists group,
      nth_error arr 1 = Some (Some group) /\
      deriveKey rt request env
      = ([], Normal (Some (group +:+ paramsSuffix rt env (req_url request)))).

(** ** Vocabulary of the further properties *)

(** A request with another query. *)
Definition Request_with_query (r : Request) (q : list (string * string)) : Request :=
  {| req_url := {| host := host (req_url r); pathname := pathname (req_url r);
                   searchParams := q |};
     req_method := req_method r; req_headers := req_headers r;
     req_body := req_body r; req_redirect := req_redirect r |}.

(** The names of line 71: the whitelist split at commas, each name trimmed. *)
Definition whitelist (env : Env) : list string :=
  map Str.trim (Str.split "," (PARAMS_KEY env)).

(** The key a store call is made with. *)
Definition store_key (e : Event) : option string :=
  match e with
  | EvHead k | EvGet k _ | EvWaitUntilPut k _ _ => Some k
  | EvFetch _ => None
  end.

(** An event that is not a request to the origin and hands nothing over
    to be stored. *)
Definition store_read (e : Event) : Prop :=
  match e with
  | EvHead _ | EvGet _ _ => True
  | EvFetch _ | EvWaitUntilPut _ _ _ => False
  end.

(** A read of the store that asks for the whole content. *)
Definition whole_read (e : Event) : Prop :=
  match e with
  | EvGet _ o => range o = None
  | _ => True
  end.

(** What is handed over to be stored is the body and the headers of a
    successful answer of the origin to the request of line 162, under the
    key of the request, for a GET or a POST. *)
Definition populated_from_origin (rt : Runtime) (request : Request) (key : string)
    (e : Event) : Prop :=
  match e with
  | EvWaitUntilPut k v md =>
      k = key
      /\ (req_method request = "GET" \/ req_method request = "POST")
      /\ exists r, fetch rt (stripped request) = Value r
                   /\ ok r = true /\ v = resp_body r /\ v <> None
                   /\ md = resp_headers r
  | _ => True
  end.

(** Lines 83 to 87 as a function of the stored size and the parsed range. *)
Definition resolved (fileSize : Z) (firstRange : ByteRange) : ParsedRange :=
  if fileSize =? range_end firstRange + 1
  then Suffix (fileSize - range_start firstRange)
  else OffsetLength (range_start firstRange)
         (range_end firstRange - range_start firstRange + 1).

(** An object the bucket answers with under a key, or no object. *)
Definition from_bucket (b : R2Bucket) (key : string) (file : option R2Object) : Prop :=
  match file with
  | Some g => head b key = Some g \/ exists o, get b key o = Some g
  | None => True
  end.

(** The five responses the handler builds without an object or an origin
    response: lines 89, 113, 123, 171 and 164. *)
Definition canned (r : Response) : Prop :=
  r = Response_new (Some "Range Not Satisfiable") 416
  \/ r = Response_new (Some "Precondition Failed") 412
  \/ r = Response_new None 304
  \/ r = Response_new (Some "Bad Request") 400
  \/ r = Response_new None 521.

(** How a cacheable request completes: with a canned response, with a
    response assembled from an object the bucket answered with, with the
    answer of the origin to the request of line 162, or with the error
    thrown by the HEAD probe. *)
Definition classified (rt : Runtime) (request : Request) (env : Env) (key : string)
    (c : Completion Response) : Prop :=
  match c with
  | Return r => canned r
  | Normal r =>
      (exists g range, from_bucket (CACHE_BUCKET env) key (Some g)
                       /\ r = storeResponse rt env g range)
      \/ fetch rt (stripped request) = Value r
  | Throw e => fetch rt (probe request) = Raised e
  end.

(** Further deployments for the examples: an origin that refuses every
    request, one that cannot be reached, and an environment whose POST
    pattern does not compile. *)
Module Sample2.

Definition forbidding : Runtime :=
  runtime (fun _ => Value {| status := 403; resp_body := None; resp_headers := [] |}).

Definition unreachable : Runtime :=
  runtime (fun _ => Raised "Network connection lost.").

Definition broken_env : Env :=
  {| ALLOWED_ORIGINS := ALLOWED_ORIGINS Sample.env;
     CACHE_BUCKET := CACHE_BUCKET Sample.env;
     CACHE_CONTROL := CACHE_CONTROL Sample.env;
     PARAMS_KEY := PARAMS_KEY Sample.env;
     IMAGE_REGEX := IMAGE_REGEX Sample.env;
     IMAGE_REGEX_POST := "(";
     IMAGE_HOST := IMAGE_HOST Sample.env |}.

Definition undecodable : Request := Sample.request "GET" "/%zz" [].

Definition head_cached : Request := Sample.request "HEAD" "/api/assets/12ab/thumbnail" [].

Definition head_ranged : Request :=
  Sample.request "HEAD" "/api/assets/12ab/thumbnail" [("range", "bytes=0-1,5-6")].

Definition ranged : Request :=
  Sample.request "GET" "/api/assets/12ab/thumbnail" [("range", "bytes=2-5")].

End Sample2.

(** * Properties *)

(** ** The monad *)

Lemma bind_Normal {A B} (m : M A) (f : A -> M B) l a :
  m = (l, Normal a) -> bind m f = ((l ++ fst (f a))%list, snd (f a)).
Proof. intros ->. unfold bind. destruct (f a); reflexivity. Qed.

Lemma bind_Return {A B} (m : M A) (f : A -> M B) l r :
  m = (l, Return r) -> bind m f = (l, Return r).
Proof. intros ->. reflexivity. Qed.

Lemma bind_Throw {A B} (m : M A) (f : A -> M B) l e :
  m = (l, Throw e) -> bind m f = (l, Throw e).
Proof. intros ->. reflexivity. Qed.

Lemma bind_ret {A B} (a : A) (f : A -> M B) : bind (ret a) f = f a.
Proof. unfold bind, ret. destruct (f a); reflexivity. Qed.

(** A property of events that holds along both parts of a sequence holds
    along the sequence. *)
Lemma bind_log_Forall {A B} (P : Event -> Prop) (m : M A) (f : A -> M B) :
  Forall P (fst m) -> (forall a, Forall P (fst (f a))) -> Forall P (fst (bind m f)).
Proof.
  intros Hm Hf. destruct m as [l [a | r | e]]; simpl in *; auto.
  specialize (Hf a). destruct (f a) as [l' c]. simpl in *.
  apply Forall_app; split; assumption.
Qed.

Lemma bind_log_extends {A B} (m : M A) (f : A -> M B) :
  exists l, fst (bind m f) = (fst m ++ l)%list.
Proof.
  destruct m as [lm [a | r | e]]; simpl.
  - destruct (f a) as [l c]. exists l. reflexivity.
  - exists []. rewrite app_nil_r. reflexivity.
  - exists []. rewrite app_nil_r. reflexivity.
Qed.

Lemma try_catch_log_Forall {A} (P : Event -> Prop) (m : M A) (h : string -> M A) :
  Forall P (fst m) -> (forall e, Forall P (fst (h e))) -> Forall P (fst (try_catch m h)).
Proof.
  intros Hm Hh. destruct m as [l [a | r | e]]; simpl in *; auto.
  specialize (Hh e). destruct (h e) as [l' c]. simpl in *.
  apply Forall_app; split; assumption.
Qed.

Lemma lift_log {A} (o : Outcome A) : fst (lift o) = [].
Proof. destruct o; reflexivity. Qed.

Section Properties.

Context (rt : Runtime).

(** *** Key derivation performs no store call and no request *)

Lemma matchPath_log request env : fst (matchPath rt request env) = [].
Proof.
  unfold matchPath.
  destruct (RegExp_new rt (IMAGE_REGEX env)); [| reflexivity].
  destruct (RegExp_new rt (IMAGE_REGEX_POST env)); [| reflexivity].
  destruct (decodeURIComponent rt _); reflexivity.
Qed.

Lemma deriveKey_log request env : fst (deriveKey rt request env) = [].
Proof.
  unfold deriveKey.
  pose proof (matchPath_log request env) as H.
  destruct (matchPath rt request env) as [l [a | r | e]]; simpl in *; subst; auto.
  destruct (negb _); reflexivity.
Qed.

(** The whitelisted parameters depend on the query alone, not on the host. *)
Lemma paramsSuffix_host env url h :
  paramsSuffix rt env (URL_set_host url h) = paramsSuffix rt env url.
Proof. reflexivity. Qed.

(** *** The cache key *)

(** C2, as amended: for every request the handler treats as cacheable (a
    GET, HEAD or POST whose decoded path, first character dropped, matches
    the pattern of its method with a non-empty matched text), the path
    component of the cache key is the whole matched text, element 0 of the
    match array, whatever the capture groups hold. *)
Theorem key_is_whole_match request env whole groups :
  cacheable_method (req_method request) = true ->
  matchPath rt request env = ([], Normal (Some (Some whole :: groups))) ->
  whole <> "" ->
  deriveKey rt request env
  = ([], Normal (Some (whole +:+ paramsSuffix rt env (req_url request)))).
Proof.
  intros Hm Hp Hw. unfold deriveKey. rewrite Hp. simpl.
  rewrite Hm. unfold Str.truthy.
  destruct (String.eqb_spec whole ""); [contradiction |]. reflexivity.
Qed.

(** *** Dates that parse to the epoch *)

Lemma bind_ext {A B} (m : M A) (f g : A -> M B) :
  (forall a, f a = g a) -> bind m f = bind m g.
Proof. intros H. destruct m as [l [a | r | e]]; simpl; auto. rewrite H. reflexivity. Qed.

Lemma checkMustNotMatch_epoch env key inm file range :
  checkMustNotMatch env key inm (Some 0) file range
  = checkMustNotMatch env key inm None file range.
Proof. unfold checkMustNotMatch. destruct (Str.truthy_opt inm); reflexivity. Qed.

Lemma checkMustMatch_epoch env key im file range :
  checkMustMatch env key im (Some 0) file range
  = checkMustMatch env key im None file range.
Proof. unfold checkMustMatch. destruct (Str.truthy_opt im); reflexivity. Qed.

Lemma mustMatchPhase_modified request env key c d :
  mustMatchPhase rt request env key (with_ifModifiedSince c d)
  = mustMatchPhase rt request env key c.
Proof. reflexivity. Qed.

Lemma rangePhase_unmodified request env key c d :
  rangePhase rt request env key (with_ifUnmodifiedSince c d)
  = rangePhase rt request env key c.
Proof. reflexivity. Qed.

Lemma serve_epoch_modified request env key c :
  serve rt request env key (with_ifModifiedSince c (Some 0))
  = serve rt request env key (with_ifModifiedSince c None).
Proof.
  unfold serve, mustNotMatchPhase. rewrite !mustMatchPhase_modified.
  cbn [ifNoneMatch ifModifiedSince with_ifModifiedSince].
  f_equal. apply bind_ext. intros a. rewrite checkMustNotMatch_epoch. reflexivity.
Qed.

Lemma serve_epoch_unmodified request env key c :
  serve rt request env key (with_ifUnmodifiedSince c (Some 0))
  = serve rt request env key (with_ifUnmodifiedSince c None).
Proof.
  unfold serve, mustNotMatchPhase, mustMatchPhase. rewrite !rangePhase_unmodified.
  cbn [ifMatch ifNoneMatch ifModifiedSince ifUnmodifiedSince with_ifUnmodifiedSince].
  f_equal.
Qed.

(** *** What each stage may record *)

Section Logs.

Variable P : Event -> Prop.

Lemma emit_log e : P e -> Forall P (fst (emit e)).
Proof. intros H. repeat constructor. exact H. Qed.

Lemma R2_head_log b key : P (EvHead key) -> Forall P (fst (R2_head b key)).
Proof. intros H. repeat constructor. exact H. Qed.

Lemma R2_get_log b key o : P (EvGet key o) -> Forall P (fst (R2_get b key o)).
Proof. intros H. repeat constructor. exact H. Qed.

Lemma do_fetch_log r : P (EvFetch r) -> Forall P (fst (do_fetch rt r)).
Proof.
  intros H. unfold do_fetch. apply bind_log_Forall.
  - apply emit_log, H.
  - intros _. rewrite lift_log. constructor.
Qed.

Lemma resolveRange_log request env key :
  P (EvHead key) -> Forall P (fst (resolveRange rt request env key)).
Proof.
  intros H. unfold resolveRange.
  destruct (String.eqb _ "GET"); [| constructor].
  destruct (Headers_get _ "range") as [h |]; [| constructor].
  destruct (Str.truthy h); [| constructor].
  apply bind_log_Forall; [apply R2_head_log, H |].
  intros [f |]; [| constructor].
  destruct (parseRange rt (size f) h) as [| | ty [| r [| r' l]]];
    try constructor.
  destruct (String.eqb ty "bytes"); [| constructor].
  destruct (size f =? range_end r + 1); constructor.
Qed.

Lemma checkMustMatch_log env key im ius file range :
  P (EvGet key
       {| onlyIf := Some {| etagMatches := im; etagDoesNotMatch := None;
                            uploadedBefore := if truthy_num ius then ius else None;
                            uploadedAfter := None |};
          range := range |}) ->
  Forall P (fst (checkMustMatch env key im ius file range)).
Proof.
  intros H. unfold checkMustMatch.
  destruct (_ || _); [| constructor].
  apply bind_log_Forall; [apply R2_get_log, H |].
  intros f. destruct (negb (hasBody f)); constructor.
Qed.

Lemma checkMustNotMatch_log env key inm ims file range :
  (Str.truthy_opt inm = true ->
   P (EvGet key
        {| onlyIf := Some {| etagMatches := None; etagDoesNotMatch := inm;
                             uploadedBefore := None; uploadedAfter := None |};
           range := range |})) ->
  (Str.truthy_opt inm = false -> truthy_num ims = true ->
   P (EvGet key
        {| onlyIf := Some {| etagMatches := None; etagDoesNotMatch := None;
                             uploadedBefore := None; uploadedAfter := ims |};
           range := range |})) ->
  Forall P (fst (checkMustNotMatch env key inm ims file range)).
Proof.
  intros H1 H2. unfold checkMustNotMatch.
  destruct (Str.truthy_opt inm) eqn:Et; unfold orb.
  - apply bind_log_Forall; [apply R2_get_log, H1; reflexivity |].
    intros f. destruct (negb (hasBody f)); constructor.
  - destruct (truthy_num ims) eqn:En; [| constructor].
    apply bind_log_Forall; [apply R2_get_log, H2; reflexivity |].
    intros f. destruct (negb (hasBody f)); constructor.
Qed.

Lemma missResponse_log request env key :
  P (EvFetch (Request_with_headers request
                (Headers_delete
                   (Headers_delete (Headers_delete (req_headers request) "if-match")
                                   "if-none-match") "range"))) ->
  (forall v md, P (EvWaitUntilPut key v md)) ->
  Forall P (fst (missResponse rt request env key)).
Proof.
  intros H1 H2. unfold missResponse.
  apply bind_log_Forall.
  - apply try_catch_log_Forall; [apply do_fetch_log, H1 | intros; constructor].
  - intros r. apply bind_log_Forall; [| intros; constructor].
    destruct (_ && _); [apply emit_log, H2 | constructor].
Qed.

Lemma respond_log request env key file range :
  P (EvHead key) ->
  P (EvFetch (Request_with_method request "HEAD" manual)) ->
  P (EvGet key {| onlyIf := None; range := range |}) ->
  P (EvFetch (Request_with_headers request
                (Headers_delete
                   (Headers_delete (Headers_delete (req_headers request) "if-match")
                                   "if-none-match") "range"))) ->
  (forall v md, P (EvWaitUntilPut key v md)) ->
  Forall P (fst (respond rt request env key file range)).
Proof.
  intros Hh Hp Hg Hf Hw. unfold respond.
  apply bind_log_Forall.
  - destruct file; [constructor | apply R2_head_log, Hh].
  - intros [f |].
    + apply bind_log_Forall.
      * unfold revalidated. destruct (negb (is_private f)); [constructor |].
        apply bind_log_Forall; [apply do_fetch_log, Hp | intros; constructor].
      * intros [|]; [| constructor].
        apply bind_log_Forall; [| intros; constructor].
        destruct (negb (hasBody (Some f))); [| constructor].
        apply bind_log_Forall; [apply R2_get_log, Hg | intros; constructor].
    + destruct range; [constructor |].
      apply missResponse_log; assumption.
Qed.

Lemma serve_log request env key c :
  P (EvHead key) ->
  (forall range,
     P (EvGet key
          {| onlyIf := Some {| etagMatches := ifMatch c; etagDoesNotMatch := None;
                               uploadedBefore :=
                                 if truthy_num (ifUnmodifiedSince c)
                                 then ifUnmodifiedSince c else None;
                               uploadedAfter := None |};
             range := range |})) ->
  (forall range,
     P (EvGet key
          {| onlyIf := Some {| etagMatches := None; etagDoesNotMatch := ifNoneMatch c;
                               uploadedBefore := None; uploadedAfter := None |};
             range := range |})) ->
  (forall range, truthy_num (ifModifiedSince c) = true ->
     P (EvGet key
          {| onlyIf := Some {| etagMatches := None; etagDoesNotMatch := None;
                               uploadedBefore := None;
                               uploadedAfter := ifModifiedSince c |};
             range := range |})) ->
  (forall range, P (EvGet key {| onlyIf := None; range := range |})) ->
  P (EvFetch (Request_with_method request "HEAD" manual)) ->
  P (EvFetch (stripped request)) ->
  (forall v md, P (EvWaitUntilPut key v md)) ->
  Forall P (fst (serve rt request env key c)).
Proof.
  intros Hh Hm Hn Hd Hg Hp Hs Hw.
  unfold serve, mustNotMatchPhase, mustMatchPhase, rangePhase.
  apply bind_log_Forall; [| intros; apply respond_log; auto; apply Hs].
  apply bind_log_Forall; [| intros].
  - apply bind_log_Forall; [| intros].
    + apply bind_log_Forall; [apply resolveRange_log, Hh | intros; constructor].
    + apply bind_log_Forall; [apply checkMustMatch_log, Hm | intros; constructor].
  - apply bind_log_Forall; [| intros; constructor].
    apply checkMustNotMatch_log; intros; auto.
Qed.

Lemma handleRequest_log request env :
  (forall key, P (EvHead key)) ->
  (forall key o, onlyIf o = None -> P (EvGet key o)) ->
  (forall key range,
     P (EvGet key
          {| onlyIf := Some {| etagMatches := ifMatch (conditionals rt request);
                               etagDoesNotMatch := None;
                               uploadedBefore :=
                                 if truthy_num (ifUnmodifiedSince (conditionals rt request))
                                 then ifUnmodifiedSince (conditionals rt request)
                                 else None;
                               uploadedAfter := None |};
             range := range |})) ->
  (forall key range,
     P (EvGet key
          {| onlyIf := Some {| etagMatches := None;
                               etagDoesNotMatch := ifNoneMatch (conditionals rt request);
                               uploadedBefore := None; uploadedAfter := None |};
             range := range |})) ->
  (forall key range, truthy_num (ifModifiedSince (conditionals rt request)) = true ->
     P (EvGet key
          {| onlyIf := Some {| etagMatches := None; etagDoesNotMatch := None;
                               uploadedBefore := None;
                               uploadedAfter := ifModifiedSince (conditionals rt request) |};
             range := range |})) ->
  P (EvFetch request) ->
  P (EvFetch (Request_with_method request "HEAD" manual)) ->
  P (EvFetch (stripped request)) ->
  (forall key v md, P (EvWaitUntilPut key v md)) ->
  Forall P (fst (handleRequest rt request env)).
Proof.
  intros Hh Hg Hm Hn Hd Hf Hp Hs Hw. unfold handleRequest.
  apply bind_log_Forall; [rewrite deriveKey_log; constructor |].
  intros [key |].
  - apply serve_log; auto.
  - apply bind_log_Forall; [apply do_fetch_log, Hf | intros; constructor].
Qed.

End Logs.

(** Every request sent to the origin is the incoming one, its HEAD probe,
    or its copy without the three headers: in each case with the URL,
    host included, and the body of the incoming request. *)
Lemma handleRequest_forwards request env :
  Forall (forwards_of request) (fst (handleRequest rt request env)).
Proof. apply handleRequest_log; intros; simpl; auto. Qed.

Lemma forwards_keep_url request env q :
  In (EvFetch q) (fst (handleRequest rt request env)) ->
  req_url q = req_url request /\ req_body q = req_body request
  /\ (req_method q = req_method request \/ req_method q = "HEAD").
Proof.
  intros Hin.
  pose proof (handleRequest_forwards request env) as H.
  rewrite List.Forall_forall in H. specialize (H _ Hin). simpl in H.
  destruct H as [-> | [-> | ->]]; simpl; auto.
Qed.

Lemma handleRequest_dated_reads request env :
  Forall (dated_reads_from_headers rt request) (fst (handleRequest rt request env)).
Proof.
  apply handleRequest_log; intros; try exact I.
  - destruct o as [c r]. simpl in *. subst. exact I.
  - simpl. split; [left; reflexivity |].
    destruct (truthy_num _) eqn:E; [right; split; [reflexivity | exact E] | left; reflexivity].
  - simpl. split; left; reflexivity.
  - simpl. split; [right; split; [reflexivity | assumption] | left; reflexivity].
Qed.

(** C10: a date header that parses to the epoch, the number 0, is treated
    as an unparseable or absent one.  The handler behaves on the parsed
    headers with that date as it does with NaN in its place; with no
    entity-tag of the same group the group is skipped, with no store read
    and no 304 or 412; and every dated read the handler issues carries a
    non-zero date parsed from the header. *)
Theorem epoch_date_is_skipped request env key c file range :
  serve rt request env key (with_ifModifiedSince c (Some 0))
  = serve rt request env key (with_ifModifiedSince c None)
  /\ serve rt request env key (with_ifUnmodifiedSince c (Some 0))
     = serve rt request env key (with_ifUnmodifiedSince c None)
  /\ (forall inm, Str.truthy_opt inm = false ->
        checkMustNotMatch env key inm (Some 0) file range = ret file)
  /\ (forall im, Str.truthy_opt im = false ->
        checkMustMatch env key im (Some 0) file range = ret file)
  /\ Forall (dated_reads_from_headers rt request) (fst (handleRequest rt request env)).
Proof.
  split; [apply serve_epoch_modified |].
  split; [apply serve_epoch_unmodified |].
  split; [intros inm H; unfold checkMustNotMatch; rewrite H; reflexivity |].
  split; [intros im H; unfold checkMustMatch; rewrite H; reflexivity |].
  apply handleRequest_dated_reads.
Qed.

(** With a header that parses to the epoch, no read of the store carries
    the date of that header. *)
Lemma epoch_if_modified_since_not_read request env key cnd r :
  ifModifiedSince (conditionals rt request) = Some 0 ->
  In (EvGet key {| onlyIf := Some cnd; range := r |}) (fst (handleRequest rt request env)) ->
  uploadedAfter cnd = None.
Proof.
  intros H0 Hin.
  pose proof (handleRequest_dated_reads request env) as H.
  rewrite List.Forall_forall in H. specialize (H _ Hin).
  cbv beta iota delta [dated_reads_from_headers] in H.
  destruct H as [[H | [H Ht]] _]; [exact H |].
  rewrite H, H0 in Ht. discriminate Ht.
Qed.

Lemma epoch_if_unmodified_since_not_read request env key cnd r :
  ifUnmodifiedSince (conditionals rt request) = Some 0 ->
  In (EvGet key {| onlyIf := Some cnd; range := r |}) (fst (handleRequest rt request env)) ->
  uploadedBefore cnd = None.
Proof.
  intros H0 Hin.
  pose proof (handleRequest_dated_reads request env) as H.
  rewrite List.Forall_forall in H. specialize (H _ Hin).
  cbv beta iota delta [dated_reads_from_headers] in H.
  destruct H as [_ [H | [H Ht]]]; [exact H |].
  rewrite H, H0 in Ht. discriminate Ht.
Qed.

(** *** Cacheable requests *)

Lemma handleRequest_cacheable request env key :
  deriveKey rt request env = ([], Normal (Some key)) ->
  handleRequest rt request env = serve rt request env key (conditionals rt request).
Proof.
  intros H. unfold handleRequest. rewrite (bind_Normal _ _ _ _ H). simpl.
  destruct (serve _ _ _ _ _); reflexivity.
Qed.

(** *** Ranges the handler rejects *)

Lemma resolveRange_rejected request env key rangeHeader f :
  req_method request = "GET" ->
  Headers_get (req_headers request) "range" = Some rangeHeader ->
  rangeHeader <> "" ->
  head (CACHE_BUCKET env) key = Some f ->
  rejected (parseRange rt (size f) rangeHeader) ->
  resolveRange rt request env key
  = ([EvHead key], Return (Response_new (Some "Range Not Satisfiable") 416)).
Proof.
  intros Hm Hr Hne Hh Hp. unfold resolveRange. rewrite Hm, Hr. simpl.
  unfold Str.truthy. destruct (String.eqb_spec rangeHeader ""); [contradiction |].
  simpl. rewrite Hh.
  destruct (parseRange rt (size f) rangeHeader) as [| | ty [| r [| r' rs]]];
    simpl in *; try reflexivity.
  - destruct Hp as [Hp | [Hp | Hp]]; [lia | | discriminate].
    destruct (String.eqb_spec ty "bytes"); [contradiction | reflexivity].
Qed.

(** C5: for a cacheable GET whose key has an object in the store, a Range
    header that parses to more than one range, or to a unit other than
    bytes, or that is unsatisfiable or malformed for the object's size, is
    answered 416; the store probe is the only effect, so nothing falls
    back to a full response. *)
Theorem rejected_range_is_416 request env key rangeHeader f :
  deriveKey rt request env = ([], Normal (Some key)) ->
  req_method request = "GET" ->
  Headers_get (req_headers request) "range" = Some rangeHeader ->
  rangeHeader <> "" ->
  head (CACHE_BUCKET env) key = Some f ->
  rejected (parseRange rt (size f) rangeHeader) ->
  handleRequest rt request env
  = ([EvHead key], Return (Response_new (Some "Range Not Satisfiable") 416)).
Proof.
  intros Hk Hm Hr Hne Hh Hp.
  rewrite (handleRequest_cacheable _ _ _ Hk).
  unfold serve, mustNotMatchPhase, mustMatchPhase, rangePhase.
  rewrite (resolveRange_rejected _ _ _ _ _ Hm Hr Hne Hh Hp). reflexivity.
Qed.

(** *** The must-match group *)

Lemma checkMustMatch_fails env key c file range :
  Str.truthy_opt (ifMatch c) || truthy_num (ifUnmodifiedSince c) = true ->
  hasBody (get (CACHE_BUCKET env) key (must_match_options c range)) = false ->
  checkMustMatch env key (ifMatch c) (ifUnmodifiedSince c) file range
  = ([EvGet key (must_match_options c range)],
     Return (Response_new (Some "Precondition Failed") 412)).
Proof.
  intros Hc Hb. unfold checkMustMatch. rewrite Hc.
  unfold R2_get, must_match_options in *. simpl. rewrite Hb. reflexivity.
Qed.

(** C6, as amended: for a cacheable request that the range stage let
    through and that presents a non-empty If-Match for which the store
    reports no matching object, the response has status 412 and the body
    text Precondition Failed; the conditional read is the last effect, so
    there is no origin fallback and no must-not-match evaluation. *)
Theorem failed_if_match_is_412 request env key l file range :
  deriveKey rt request env = ([], Normal (Some key)) ->
  rangePhase rt request env key (conditionals rt request) = (l, Normal (file, range)) ->
  Str.truthy_opt (ifMatch (conditionals rt request)) = true ->
  hasBody (get (CACHE_BUCKET env) key
             (must_match_options (conditionals rt request) range)) = false ->
  handleRequest rt request env
  = ((l ++ [EvGet key (must_match_options (conditionals rt request) range)])%list,
     Return (Response_new (Some "Precondition Failed") 412)).
Proof.
  intros Hk Hr Hc Hb.
  rewrite (handleRequest_cacheable _ _ _ Hk).
  unfold serve, mustNotMatchPhase, mustMatchPhase.
  rewrite (bind_Normal _ _ _ _ Hr). cbn [fst snd].
  rewrite checkMustMatch_fails; [reflexivity | | exact Hb].
  rewrite Hc. reflexivity.
Qed.

(** *** The must-not-match group *)

Lemma checkMustNotMatch_etag_fails env key c file range :
  Str.truthy_opt (ifNoneMatch c) = true ->
  hasBody (get (CACHE_BUCKET env) key (none_match_options c range)) = false ->
  checkMustNotMatch env key (ifNoneMatch c) (ifModifiedSince c) file range
  = ([EvGet key (none_match_options c range)], Return (Response_new None 304)).
Proof.
  intros Hc Hb. unfold checkMustNotMatch. rewrite Hc.
  unfold R2_get, none_match_options in *. simpl. rewrite Hb. reflexivity.
Qed.

(** C8: for a cacheable request that passed the range stage and the
    must-match group and that presents a non-empty If-None-Match for
    which the store reports the entity-tag equal (its read keyed on
    etagDoesNotMatch returns no body), the response is a 304 with an
    empty body whatever If-Modified-Since holds: the one read issued
    carries the entity-tag and no date. *)
Theorem matching_if_none_match_is_304 request env key l file range :
  deriveKey rt request env = ([], Normal (Some key)) ->
  mustMatchPhase rt request env key (conditionals rt request)
  = (l, Normal (file, range)) ->
  Str.truthy_opt (ifNoneMatch (conditionals rt request)) = true ->
  hasBody (get (CACHE_BUCKET env) key
             (none_match_options (conditionals rt request) range)) = false ->
  handleRequest rt request env
  = ((l ++ [EvGet key (none_match_options (conditionals rt request) range)])%list,
     Return (Response_new None 304)).
Proof.
  intros Hk Hr Hc Hb.
  rewrite (handleRequest_cacheable _ _ _ Hk).
  unfold serve, mustNotMatchPhase.
  rewrite (bind_Normal _ _ _ _ Hr). cbn [fst snd].
  rewrite checkMustNotMatch_etag_fails; [reflexivity | exact Hc | exact Hb].
Qed.

(** *** The privacy gate and the store response *)

Lemma respond_hit request env key file range f :
  match file with Some _ => file | None => head (CACHE_BUCKET env) key end = Some f ->
  (is_private f = false \/
   exists r, fetch rt (probe request) = Value r /\ (status r < 300 \/ status r = 304)) ->
  respond rt request env key file range
  = ((match file with Some _ => [] | None => [EvHead key] end
      ++ (if is_private f then [EvFetch (probe request)] else [])
      ++ (if hasBody (Some f) then [] else [EvGet key (plain_options range)]))%list,
     Normal (storeResponse rt env (served_object env key f range) range)).
Proof.
  intros Hf Hgate. unfold respond, served_object, plain_options.
  assert (Hpass : revalidated rt request f
                  = (if is_private f then [EvFetch (probe request)] else [], Normal true)).
  { unfold revalidated, do_fetch, probe in *.
    destruct (is_private f); simpl; [| reflexivity].
    destruct Hgate as [Hgate | [r [Hr Hs]]]; [discriminate |].
    rewrite Hr. simpl. f_equal. f_equal.
    destruct Hs as [Hs | Hs].
    - apply Z.ltb_lt in Hs. rewrite Hs. reflexivity.
    - apply Z.eqb_eq in Hs. rewrite Hs. apply orb_true_r. }
  destruct file as [f0 |]; simpl in Hf.
  - injection Hf as ->. rewrite bind_ret.
    rewrite (bind_Normal _ _ _ _ Hpass). cbn [fst snd].
    unfold hasBody. destruct (body f); simpl;
      [| destruct (get _ _ _)]; simpl; rewrite ?app_nil_r; reflexivity.
  - unfold R2_head. simpl. rewrite Hf.
    destruct (revalidated rt request f) as [lp cp]. injection Hpass as -> ->.
    unfold hasBody. destruct (body f); simpl;
      [| destruct (get _ _ _)]; simpl; rewrite ?app_nil_r; reflexivity.
Qed.

(** The store response field by field: lines 135 to 151 with the helpers
    of lines 25 to 40 written out. *)
Lemma storeResponse_fields env g range :
  storeResponse rt env g range
  = {| status := match range with Some _ => 206 | None => 200 end;
          resp_body := if size g =? 0 then None else body g;
          resp_headers :=
            [ ("accept-ranges", "bytes");
              ("access-control-allow-origin",
                match ALLOWED_ORIGINS env with
                | Some o => if String.eqb o "" then "" else o
                | None => ""
                end);
              ("etag", httpEtag g);
              ("cache-control",
                match httpMetadata g with
                | Some {| cacheControl := Some cc |} => cc
                | _ => match CACHE_CONTROL env with
                       | Some c => if String.eqb c "" then "" else c
                       | None => ""
                       end
                end);
              ("expires",
                match httpMetadata g with
                | Some {| cacheExpiry := Some d |} => Date_toUTCString rt d
                | _ => ""
                end);
              ("last-modified", Date_toUTCString rt (uploaded g));
              ("content-encoding",
                match httpMetadata g with
                | Some {| contentEncoding := Some e |} => e
                | _ => ""
                end);
              ("content-type",
                match httpMetadata g with
                | Some {| contentType := Some t |} => t
                | _ => "application/octet-stream"
                end);
              ("content-language",
                match httpMetadata g with
                | Some {| contentLanguage := Some t |} => t
                | _ => ""
                end);
              ("content-disposition",
                match httpMetadata g with
                | Some {| contentDisposition := Some t |} => t
                | _ => ""
                end);
              ("content-range",
                match range with
                | Some (Suffix suffix) =>
                    "bytes " +:+ Str.ofZ (size g - suffix) +:+ "-"
                    +:+ Str.ofZ (size g - 1) +:+ "/" +:+ Str.ofZ (size g)
                | Some (OffsetLength offset length) =>
                    "bytes " +:+ Str.ofZ offset +:+ "-"
                    +:+ Str.ofZ (offset + length - 1) +:+ "/" +:+ Str.ofZ (size g)
                | None => ""
                end);
              ("content-length",
                Str.ofZ (match range with
                         | Some (OffsetLength _ length) => length
                         | Some (Suffix suffix) => suffix
                         | None => size g
                         end)) ] |}.
Proof.
  unfold storeResponse. f_equal.
  - unfold hasBody. destruct (body g), (size g =? 0); reflexivity.
  - unfold or_else, nullish, Str.truthy, getRangeHeader.
    repeat match goal with
           | |- (_ :: _) = (_ :: _) => apply (f_equal2 cons)
           | |- (_, _) = (_, _) => apply (f_equal2 pair); [reflexivity |]
           end;
      try reflexivity;
      try (destruct range as [[o n | sfx] |]; reflexivity);
      try (destruct (ALLOWED_ORIGINS env) as [o |]; [destruct (String.eqb o "") |];
           reflexivity);
      destruct (httpMetadata g) as [[ct cl cd ce cc cx] |]; simpl;
      try (destruct (CACHE_CONTROL env) as [c |]; [destruct (String.eqb c "") |]);
      try destruct ct; try destruct cl; try destruct cd; try destruct ce;
      try destruct cc; try destruct cx; reflexivity.
Qed.

(** C9: for a cacheable request that passed the range and conditional
    stages and whose object exists, the object is served from the store
    when its cache-control does not contain private, or when the HEAD
    probe of the origin (the same request as a HEAD that does not follow
    redirects) answers with a status below 300 or equal to 304.  The
    origin sees the probe at most, and only for a private object.  What is
    served is the object in hand when it has a body, else the object the
    plain read of the key returns (the one in hand when it returns none):
    the status is 206 for a range and 200 otherwise, the body is the
    object's content (none for an object of size 0), and the headers carry
    its entity-tag, its upload time, its metadata with the defaults of
    lines 139 to 149, the content-range of the range and the length of the
    range or of the object. *)
Theorem existing_object_is_served request env key l file range f :
  deriveKey rt request env = ([], Normal (Some key)) ->
  mustNotMatchPhase rt request env key (conditionals rt request)
  = (l, Normal (file, range)) ->
  match file with Some _ => file | None => head (CACHE_BUCKET env) key end = Some f ->
  (is_private f = false \/
   exists r, fetch rt (probe request) = Value r /\ (status r < 300 \/ status r = 304)) ->
  let g := if hasBody (Some f) then f
           else match get (CACHE_BUCKET env) key {| onlyIf := None; range := range |} with
                | Some got => got
                | None => f
                end in
  handleRequest rt request env
  = ((l ++ match file with Some _ => [] | None => [EvHead key] end
        ++ (if is_private f then [EvFetch (probe request)] else [])
        ++ (if hasBody (Some f) then []
            else [EvGet key {| onlyIf := None; range := range |}]))%list,
     Normal
       {| status := match range with Some _ => 206 | None => 200 end;
          resp_body := if size g =? 0 then None else body g;
          resp_headers :=
            [ ("accept-ranges", "bytes");
              ("access-control-allow-origin",
                match ALLOWED_ORIGINS env with
                | Some o => if String.eqb o "" then "" else o
                | None => ""
                end);
              ("etag", httpEtag g);
              ("cache-control",
                match httpMetadata g with
                | Some {| cacheControl := Some cc |} => cc
                | _ => match CACHE_CONTROL env with
                       | Some c => if String.eqb c "" then "" else c
                       | None => ""
                       end
                end);
              ("expires",
                match httpMetadata g with
                | Some {| cacheExpiry := Some d |} => Date_toUTCString rt d
                | _ => ""
                end);
              ("last-modified", Date_toUTCString rt (uploaded g));
              ("content-encoding",
                match httpMetadata g with
                | Some {| contentEncoding := Some e |} => e
                | _ => ""
                end);
              ("content-type",
                match httpMetadata g with
                | Some {| contentType := Some t |} => t
                | _ => "application/octet-stream"
                end);
              ("content-language",
                match httpMetadata g with
                | Some {| contentLanguage := Some t |} => t
                | _ => ""
                end);
              ("content-disposition",
                match httpMetadata g with
                | Some {| contentDisposition := Some t |} => t
                | _ => ""
                end);
              ("content-range",
                match range with
                | Some (Suffix suffix) =>
                    "bytes " +:+ Str.ofZ (size g - suffix) +:+ "-"
                    +:+ Str.ofZ (size g - 1) +:+ "/" +:+ Str.ofZ (size g)
                | Some (OffsetLength offset length) =>
                    "bytes " +:+ Str.ofZ offset +:+ "-"
                    +:+ Str.ofZ (offset + length - 1) +:+ "/" +:+ Str.ofZ (size g)
                | None => ""
                end);
              ("content-length",
                Str.ofZ (match range with
                         | Some (OffsetLength _ length) => length
                         | Some (Suffix suffix) => suffix
                         | None => size g
                         end)) ] |}).
Proof.
  intros Hk Hp Hf Hgate g.
  rewrite (handleRequest_cacheable _ _ _ Hk). unfold serve.
  rewrite (bind_Normal _ _ _ _ Hp). cbn [fst snd].
  rewrite (respond_hit _ _ _ _ _ _ Hf Hgate).
  change (served_object env key f range) with g.
  rewrite storeResponse_fields. reflexivity.
Qed.

(** *** Absent objects *)

Lemma missResponse_spec request env key :
  missResponse rt request env key
  = match fetch rt (stripped request) with
    | Value r => (EvFetch (stripped request) :: populate request key r, Normal r)
    | Raised _ => ([EvFetch (stripped request)], Return (Response_new None 521))
    end.
Proof.
  unfold missResponse, do_fetch, stripped, populate.
  destruct (fetch rt _) as [r | e]; simpl; [| reflexivity].
  destruct (_ && _); reflexivity.
Qed.

Lemma resolveRange_absent request env key :
  head (CACHE_BUCKET env) key = None ->
  exists l, Forall (eq (EvHead key)) l
            /\ resolveRange rt request env key = (l, Normal (None, None)).
Proof.
  intros Hh. unfold resolveRange.
  destruct (String.eqb _ "GET"); [| exists []; split; [constructor | reflexivity]].
  destruct (Headers_get _ "range") as [h |];
    [| exists []; split; [constructor | reflexivity]].
  destruct (Str.truthy h); [| exists []; split; [constructor | reflexivity]].
  exists [EvHead key]. split; [repeat constructor |].
  unfold R2_head. simpl. rewrite Hh. reflexivity.
Qed.

Lemma checkMustMatch_skipped env key c file range :
  Str.truthy_opt (ifMatch c) || truthy_num (ifUnmodifiedSince c) = false ->
  checkMustMatch env key (ifMatch c) (ifUnmodifiedSince c) file range = ret file.
Proof. intros Hc. unfold checkMustMatch. rewrite Hc. reflexivity. Qed.

Lemma checkMustNotMatch_date_fails env key c file range :
  Str.truthy_opt (ifNoneMatch c) = false ->
  truthy_num (ifModifiedSince c) = true ->
  hasBody (get (CACHE_BUCKET env) key (modified_since_options c range)) = false ->
  checkMustNotMatch env key (ifNoneMatch c) (ifModifiedSince c) file range
  = ([EvGet key (modified_since_options c range)], Return (Response_new None 304)).
Proof.
  intros Hn Hd Hb. unfold checkMustNotMatch. rewrite Hn, Hd.
  unfold R2_get, modified_since_options in *. simpl. rewrite Hb. reflexivity.
Qed.

Lemma checkMustNotMatch_skipped env key c file range :
  Str.truthy_opt (ifNoneMatch c) = false ->
  truthy_num (ifModifiedSince c) = false ->
  checkMustNotMatch env key (ifNoneMatch c) (ifModifiedSince c) file range = ret file.
Proof. intros Hn Hd. unfold checkMustNotMatch. rewrite Hn, Hd. reflexivity. Qed.

(** C4, as amended: for a cacheable request, with or without a Range
    header, whose key has no object in the store, the handler never
    answers 400 itself.  After the store probes it answers 412 when a
    usable If-Match or If-Unmodified-Since is present; otherwise 304 when
    a usable If-None-Match or If-Modified-Since is present; otherwise it
    forwards the request to the origin as a miss, without its if-match,
    if-none-match and range headers, and returns the origin's response,
    or 521 when the origin cannot be reached. *)
Theorem absent_object_is_forwarded request env key :
  deriveKey rt request env = ([], Normal (Some key)) ->
  head (CACHE_BUCKET env) key = None ->
  (forall o, get (CACHE_BUCKET env) key o = None) ->
  exists l,
    Forall (eq (EvHead key)) l /\
    handleRequest rt request env
    = let c := conditionals rt request in
      if Str.truthy_opt (ifMatch c) || truthy_num (ifUnmodifiedSince c) then
        ((l ++ [EvGet key (must_match_options c None)])%list,
         Return (Response_new (Some "Precondition Failed") 412))
      else if Str.truthy_opt (ifNoneMatch c) then
        ((l ++ [EvGet key (none_match_options c None)])%list,
         Return (Response_new None 304))
      else if truthy_num (ifModifiedSince c) then
        ((l ++ [EvGet key (modified_since_options c None)])%list,
         Return (Response_new None 304))
      else
        match fetch rt (stripped request) with
        | Value r =>
            ((l ++ EvHead key :: EvFetch (stripped request) :: populate request key r)%list,
             Normal r)
        | Raised _ =>
            ((l ++ [EvHead key; EvFetch (stripped request)])%list,
             Return (Response_new None 521))
        end.
Proof.
  intros Hk Hh Hg.
  destruct (resolveRange_absent request env key Hh) as [l [Hl Hr]].
  exists l. split; [exact Hl |].
  rewrite (handleRequest_cacheable _ _ _ Hk).
  cbn zeta. generalize (conditionals rt request). intros c.
  assert (Hrange : rangePhase rt request env key c = (l, Normal (None, None))).
  { unfold rangePhase. rewrite Hr. simpl. rewrite app_nil_r. reflexivity. }
  unfold serve, mustNotMatchPhase, mustMatchPhase.
  rewrite (bind_Normal _ _ _ _ Hrange). cbn [fst snd].
  destruct (Str.truthy_opt (ifMatch c) || truthy_num (ifUnmodifiedSince c)) eqn:Em.
  { rewrite (checkMustMatch_fails _ _ _ _ _ Em); [reflexivity |].
    rewrite Hg. reflexivity. }
  rewrite (checkMustMatch_skipped _ _ _ _ _ Em). simpl. rewrite app_nil_r.
  destruct (Str.truthy_opt (ifNoneMatch c)) eqn:En.
  { rewrite (checkMustNotMatch_etag_fails _ _ _ _ _ En); [reflexivity |].
    rewrite Hg. reflexivity. }
  destruct (truthy_num (ifModifiedSince c)) eqn:Ed.
  { rewrite (checkMustNotMatch_date_fails _ _ _ _ _ En Ed); [reflexivity |].
    rewrite Hg. reflexivity. }
  rewrite (checkMustNotMatch_skipped _ _ _ _ _ En Ed). simpl.
  unfold respond, R2_head. simpl. rewrite Hh.
  rewrite missResponse_spec.
  destruct (fetch rt (stripped request)); simpl; rewrite ?app_nil_r; reflexivity.
Qed.

(** *** Entity-tag headers that are not a single strong tag *)

(** The helper of line 63 returns a weak tag with its prefix: the value
    is not empty, so the tests of lines 104 and 116 take it. *)
Lemma getHeaderEtag_weak rest :
  exists s, getHeaderEtag (Some ("W/" +:+ rest)) = Some (String "W" (String "/" s)).
Proof.
  assert (Ht : Str.trim ("W/" +:+ rest) = String "W" (String "/" (Str.trimEnd rest)))
    by reflexivity.
  unfold getHeaderEtag. rewrite Ht.
  destruct (Str.trimEnd rest) as [| c r].
  - exists "". reflexivity.
  - exists (Str.dropLastQuote (String c r)). reflexivity.
Qed.

Lemma checkMustMatch_reads env key c file range :
  Str.truthy_opt (ifMatch c) = true ->
  exists o, checkMustMatch env key (ifMatch c) (ifUnmodifiedSince c) file range
            = ([EvGet key (must_match_options c range)], o).
Proof.
  intros Ht. unfold checkMustMatch, R2_get, must_match_options. rewrite Ht. simpl.
  destruct (negb (hasBody _)); eexists; reflexivity.
Qed.

(** A cacheable request with a weak If-Match that reaches the must-match
    group issues the conditional read keyed on that value. *)
Lemma weak_if_match_is_read request env key l file range rest :
  deriveKey rt request env = ([], Normal (Some key)) ->
  rangePhase rt request env key (conditionals rt request) = (l, Normal (file, range)) ->
  Headers_get (req_headers request) "if-match" = Some ("W/" +:+ rest) ->
  exists l',
    fst (handleRequest rt request env)
    = (l ++ EvGet key (must_match_options (conditionals rt request) range) :: l')%list.
Proof.
  intros Hk Hr Hh.
  rewrite (handleRequest_cacheable _ _ _ Hk).
  assert (Ht : Str.truthy_opt (ifMatch (conditionals rt request)) = true).
  { unfold conditionals. cbn [ifMatch]. rewrite Hh.
    destruct (getHeaderEtag_weak rest) as [s' ->]. reflexivity. }
  destruct (checkMustMatch_reads env key _ file range Ht) as [o Ho].
  unfold serve, mustNotMatchPhase, mustMatchPhase.
  rewrite (bind_Normal _ _ _ _ Hr). cbn [fst snd].
  match goal with
  | |- context [bind (checkMustMatch ?e ?k ?a ?b ?c ?d) ?g] =>
      destruct (bind_log_extends (checkMustMatch e k a b c d) g) as [l1 H1]
  end.
  rewrite Ho in H1 at 2. cbn [fst] in H1. rewrite H1.
  match goal with
  | |- context [fst (bind (bind ?m ?g) ?h)] =>
      destruct (bind_log_extends (bind m g) h) as [l3 H3];
      destruct (bind_log_extends m g) as [l2 H2]
  end.
  rewrite H3, H2. cbn [fst]. rewrite <- !app_assoc. eexists. reflexivity.
Qed.

End Properties.

(** ** The reference bucket *)

Lemma R2_get_absent objects key o :
  objects !! key = None -> get (R2.bucket objects) key o = None.
Proof. intros H. simpl. rewrite H. reflexivity. Qed.

(** A read keyed on etagMatches returns a body exactly when the entity-tag
    is the stored one, and a read keyed on etagDoesNotMatch exactly when it
    is not. *)
Lemma R2_get_etagMatches (objects : gmap string R2Object) key o e r content :
  objects !! key = Some o -> body o = Some content ->
  hasBody (get (R2.bucket objects) key
             {| onlyIf := Some {| etagMatches := Some e; etagDoesNotMatch := None;
                                  uploadedBefore := None; uploadedAfter := None |};
                range := r |})
  = String.eqb e (etag o).
Proof.
  intros H Hb. simpl. rewrite H. unfold R2.holds. simpl.
  destruct (String.eqb e (etag o)); simpl; [rewrite Hb |]; reflexivity.
Qed.

Lemma R2_get_etagDoesNotMatch (objects : gmap string R2Object) key o e r content :
  objects !! key = Some o -> body o = Some content ->
  hasBody (get (R2.bucket objects) key
             {| onlyIf := Some {| etagMatches := None; etagDoesNotMatch := Some e;
                                  uploadedBefore := None; uploadedAfter := None |};
                range := r |})
  = negb (String.eqb e (etag o)).
Proof.
  intros H Hb. simpl. rewrite H. unfold R2.holds. simpl.
  destruct (String.eqb e (etag o)); simpl; [| rewrite Hb]; reflexivity.
Qed.

(** ** The If-Range gate *)

(** The range is dropped exactly when the token is not a date or is a date
    later than the upload, and the token is weak or differs from the quoted
    entity-tag. *)
Lemma applyIfRange_spec rt f r token :
  token <> "" ->
  applyIfRange rt (Some f) (Some r) (Some token)
  = if match Date_parse rt token with
       | None => true
       | Some d => uploaded f <? d
       end
       && (Str.startsWith token "W/" || negb (String.eqb token (httpEtag f)))
    then None else Some r.
Proof.
  intros Hne. unfold applyIfRange, Str.truthy.
  destruct (String.eqb_spec token ""); [contradiction |]. simpl.
  destruct (Date_parse rt token) as [d |]; [destruct (uploaded f <? d) |];
    simpl; try reflexivity;
    destruct (Str.startsWith token "W/" || negb (String.eqb token (httpEtag f)));
    reflexivity.
Qed.

(** A date that is not later than the upload keeps the range, whatever
    the entity-tag; a later date drops it unless the token is the quoted
    entity-tag itself. *)
Lemma applyIfRange_date_not_later rt f r token d :
  token <> "" -> Date_parse rt token = Some d -> d <= uploaded f ->
  applyIfRange rt (Some f) (Some r) (Some token) = Some r.
Proof.
  intros Hne Hd Hle. rewrite (applyIfRange_spec _ _ _ _ Hne), Hd.
  destruct (Z.ltb_spec (uploaded f) d); [lia | reflexivity].
Qed.

Lemma applyIfRange_date_later rt f r token d :
  token <> "" -> Date_parse rt token = Some d -> uploaded f < d ->
  token <> httpEtag f ->
  applyIfRange rt (Some f) (Some r) (Some token) = None.
Proof.
  intros Hne Hd Hlt Htag. rewrite (applyIfRange_spec _ _ _ _ Hne), Hd.
  destruct (Z.ltb_spec (uploaded f) d); [| lia].
  destruct (String.eqb_spec token (httpEtag f)); [contradiction |].
  rewrite orb_true_r. reflexivity.
Qed.

(** ** The helpers and the platform on examples *)

Example getRangeHeader_tail : getRangeHeader (Suffix 10) 100 = "bytes 90-99/100".
Proof. reflexivity. Qed.

Example getRangeHeader_window : getRangeHeader (OffsetLength 2 4) 10 = "bytes 2-5/10".
Proof. reflexivity. Qed.

Lemma rangeHasLength_hasSuffix r : rangeHasLength r = negb (hasSuffix r).
Proof. destruct r; reflexivity. Qed.

Example getHeaderEtag_quoted : getHeaderEtag (Some (Str.quoted "abc123")) = Some "abc123".
Proof. reflexivity. Qed.

Example getHeaderEtag_padded :
  getHeaderEtag (Some (" '" +:+ "abc123" +:+ String Str.dquote " ")) = Some "abc123".
Proof. reflexivity. Qed.

Example getHeaderEtag_absent : getHeaderEtag None = None.
Proof. reflexivity. Qed.

Example exec_groups :
  option_map (fun r => Regex.exec r "api/assets/12ab/thumbnail")
             (Regex.parse "^api/assets/([0-9a-f-]+)/thumbnail$")
  = Some (Some [Some "api/assets/12ab/thumbnail"; Some "12ab"]).
Proof. vm_compute. reflexivity. Qed.

Example exec_no_match :
  option_map (fun r => Regex.exec r "favicon.ico")
             (Regex.parse "^api/assets/([0-9a-f-]+)/thumbnail$")
  = Some None.
Proof. vm_compute. reflexivity. Qed.

Example parseRange_tail :
  RangeParser.parseRange 100 "bytes=90-99"
  = RangeArray "bytes" [{| range_start := 90; range_end := 99 |}].
Proof. vm_compute. reflexivity. Qed.

Example parseRange_two : RangeParser.parseRange 10 "bytes=0-1,5-6"
  = RangeArray "bytes" [{| range_start := 0; range_end := 1 |};
                        {| range_start := 5; range_end := 6 |}].
Proof. vm_compute. reflexivity. Qed.

Example parseRange_beyond : RangeParser.parseRange 10 "bytes=20-30" = Unsatisfiable.
Proof. vm_compute. reflexivity. Qed.

Example parseRange_no_unit : RangeParser.parseRange 10 "0-3" = Malformed.
Proof. vm_compute. reflexivity. Qed.

Example date_epoch : HttpDate.parse "Thu, 01 Jan 1970 00:00:00 GMT" = Some 0.
Proof. vm_compute. reflexivity. Qed.

Example date_of_upload :
  HttpDate.toUTCString (uploaded Sample.thumb) = "Wed, 21 Oct 2015 07:28:00 GMT".
Proof. vm_compute. reflexivity. Qed.

(** A whitelisted parameter follows the matched path in the key. *)
Example key_with_parameter :
  deriveKey Sample.rt
    {| req_url := {| host := "cdn.example.com";
                     pathname := "/api/assets/12ab/thumbnail";
                     searchParams := [("t", "1"); ("size", "thumb nail")] |};
       req_method := "GET"; req_headers := []; req_body := None;
       req_redirect := follow |} Sample.env
  = ([], Normal (Some "api/assets/12ab/thumbnail+size%3Dthumb%2Bnail")).
Proof. vm_compute. reflexivity. Qed.

(** A range that covers the tail of the object is read as a suffix. *)
Example tail_range_is_a_suffix :
  default_fetch Sample.rt
    (Sample.request "GET" "/api/assets/12ab/thumbnail" [("range", "bytes=6-9")])
    Sample.env
  = ([EvHead Sample.thumb_key; EvGet Sample.thumb_key (plain_options (Some (Suffix 4)))],
     storeResponse Sample.rt Sample.env
       (R2.with_body Sample.thumb (Some "6789")) (Some (Suffix 4))).
Proof. vm_compute. reflexivity. Qed.

(** If-Modified-Since alone, with a date older than the upload, lets the
    body through; an epoch date is not even sent to the store. *)
Example if_modified_since_alone :
  fst (default_fetch Sample.rt
         (Sample.request "GET" "/api/assets/12ab/thumbnail"
            [("if-modified-since", Sample.older)]) Sample.env)
  = [EvGet Sample.thumb_key
       {| onlyIf := Some {| etagMatches := None; etagDoesNotMatch := None;
                            uploadedBefore := None;
                            uploadedAfter := Some 1420070400000 |};
          range := None |}]
  /\ default_fetch Sample.rt
       (Sample.request "GET" "/api/assets/12ab/thumbnail"
          [("if-modified-since", "Thu, 01 Jan 1970 00:00:00 GMT")]) Sample.env
     = default_fetch Sample.rt Sample.cached Sample.env.
Proof. split; vm_compute; reflexivity. Qed.

(** ** The handler on the sample deployment *)

(** C1: on each of the three paths to the origin the request sent is the
    incoming request, its HEAD probe, or its copy without three headers;
    its host is the host the client addressed, not the configured
    IMAGE_HOST, which line 46 assigns to a URL object that no request is
    built from. *)
Theorem forwarded_host_is_not_rewritten :
  IMAGE_HOST Sample.env = "immich.internal"
  /\ fetched (fst (handleRequest Sample.rt Sample.bypassed Sample.env))
     = [Sample.bypassed]
  /\ fetched (fst (handleRequest Sample.rt Sample.uncached_ranged Sample.env))
     = [stripped Sample.uncached_ranged]
  /\ fetched (fst (handleRequest Sample.rt Sample.private_get Sample.env))
     = [probe Sample.private_get]
  /\ map (fun q => host (req_url q))
         [Sample.bypassed; stripped Sample.uncached_ranged; probe Sample.private_get]
     = ["cdn.example.com"; "cdn.example.com"; "cdn.example.com"].
Proof. repeat split; vm_compute; reflexivity. Qed.

(** C3: the stored object was uploaded in October 2015.  With an If-Range
    date of January 2015, older than the upload, the handler keeps the
    range and answers 206; with a date of January 2017, not older than the
    upload, it drops the range and answers 200.  Line 97 compares the date
    with the upload time in the direction opposite to the one stated. *)
Theorem if_range_date_comparison_is_inverted :
  Date_parse Sample.rt Sample.older = Some 1420070400000
  /\ Date_parse Sample.rt Sample.newer = Some 1483228800000
  /\ uploaded Sample.thumb = 1445412480250
  /\ applyIfRange Sample.rt (Some Sample.thumb) (Some (OffsetLength 2 4))
       (Some Sample.older) = Some (OffsetLength 2 4)
  /\ applyIfRange Sample.rt (Some Sample.thumb) (Some (OffsetLength 2 4))
       (Some Sample.newer) = None
  /\ status (snd (default_fetch Sample.rt (Sample.ranged_if_range Sample.older) Sample.env)) = 206
  /\ status (snd (default_fetch Sample.rt (Sample.ranged_if_range Sample.newer) Sample.env)) = 200.
Proof. repeat split; vm_compute; reflexivity. Qed.

(** C7: a weak If-Match is not treated as absent.  Its value, less the
    closing quote, keys a conditional read, and the answer is 412 where the
    same request without the header is answered 200.  A list of two
    entity-tags in If-None-Match keys a conditional read as well. *)
Theorem weak_if_match_keys_a_read :
  ifMatch (conditionals Sample.rt Sample.weak_if_match)
  = Some ("W/" +:+ String Str.dquote "abc123")
  /\ handleRequest Sample.rt Sample.weak_if_match Sample.env
     = ([EvGet Sample.thumb_key
           (must_match_options (conditionals Sample.rt Sample.weak_if_match) None)],
        Return (Response_new (Some "Precondition Failed") 412))
  /\ status (snd (default_fetch Sample.rt Sample.cached Sample.env)) = 200
  /\ fst (handleRequest Sample.rt Sample.two_if_none_match Sample.env)
     = [EvGet Sample.thumb_key
          (none_match_options (conditionals Sample.rt Sample.two_if_none_match) None)]
  /\ Str.truthy_opt (ifNoneMatch (conditionals Sample.rt Sample.two_if_none_match)) = true.
Proof. repeat split; vm_compute; reflexivity. Qed.

(** C2, refuted as stated: the pattern captures 12ab, and the key is the
    whole matched path. *)
Lemma key_from_first_group_fails :
  ~ key_from_first_group Sample.rt Sample.cached Sample.env.
Proof.
  intros H.
  destruct (H [Some "api/assets/12ab/thumbnail"; Some "12ab"]) as [g [Hg Hk]];
    [vm_compute; reflexivity | vm_compute; reflexivity |].
  vm_compute in Hg. injection Hg as <-.
  vm_compute in Hk. discriminate Hk.
Qed.

(** The key of the sample thumbnail request is its whole matched path. *)
Lemma key_is_whole_match_witness :
  deriveKey Sample.rt Sample.cached Sample.env
  = ([], Normal (Some "api/assets/12ab/thumbnail")).
Proof.
  apply (key_is_whole_match Sample.rt Sample.cached Sample.env
           "api/assets/12ab/thumbnail" [Some "12ab"]);
    [vm_compute; reflexivity | vm_compute; reflexivity | discriminate].
Defined.

(** C4, refuted as stated: the range is asked of an absent object, and the
    request goes to the origin, whose 200 is returned. *)
Lemma absent_with_range_is_400_fails :
  ~ absent_with_range_is_400 Sample.rt Sample.uncached_ranged Sample.env.
Proof.
  intros H.
  destruct (H "api/assets/99ee/thumbnail" "bytes=0-3") as [Hs _];
    [vm_compute; reflexivity | vm_compute; reflexivity | vm_compute; reflexivity | |].
  - intros o. apply R2_get_absent. vm_compute. reflexivity.
  - vm_compute in Hs. discriminate Hs.
Qed.

(** The range request for an absent object is a miss: two probes of the
    store, the request without its range header, and the origin's 200
    handed over to be stored. *)
Lemma absent_object_is_forwarded_witness :
  exists l,
    Forall (eq (EvHead "api/assets/99ee/thumbnail")) l /\
    handleRequest Sample.rt Sample.uncached_ranged Sample.env
    = ((l ++ [EvHead "api/assets/99ee/thumbnail";
              EvFetch (stripped Sample.uncached_ranged);
              EvWaitUntilPut "api/assets/99ee/thumbnail" (Some "IMAGE")
                [("content-type", "image/png")]])%list,
       Normal {| status := 200; resp_body := Some "IMAGE";
                 resp_headers := [("content-type", "image/png")] |}).
Proof.
  apply (absent_object_is_forwarded Sample.rt Sample.uncached_ranged Sample.env
           "api/assets/99ee/thumbnail");
    [vm_compute; reflexivity | vm_compute; reflexivity |].
  intros o. apply R2_get_absent. vm_compute. reflexivity.
Defined.

(** C5, refuted as stated: a HEAD request asks two ranges of the sample
    thumbnail; line 75 leaves its Range header unread and the answer is
    the 200 of the whole object. *)
Lemma rejected_range_is_416_for_every_request_fails :
  ~ rejected_range_is_416_for_every_request Sample.rt Sample2.head_ranged Sample.env.
Proof.
  intros H.
  assert (Hs : status (snd (default_fetch Sample.rt Sample2.head_ranged Sample.env)) = 416).
  { apply (H Sample.thumb_key "bytes=0-1,5-6" (R2.with_body Sample.thumb None));
      [vm_compute; reflexivity | vm_compute; reflexivity | discriminate
      | vm_compute; reflexivity | vm_compute; left; lia]. }
  vm_compute in Hs. discriminate Hs.
Qed.

(** Two ranges asked of the sample thumbnail. *)
Lemma rejected_range_is_416_witness :
  handleRequest Sample.rt Sample.two_ranges Sample.env
  = ([EvHead Sample.thumb_key],
     Return (Response_new (Some "Range Not Satisfiable") 416)).
Proof.
  apply (rejected_range_is_416 Sample.rt Sample.two_ranges Sample.env
           Sample.thumb_key "bytes=0-1,5-6" (R2.with_body Sample.thumb None));
    [vm_compute; reflexivity | reflexivity | vm_compute; reflexivity
    | discriminate | vm_compute; reflexivity | vm_compute; left; lia].
Defined.

(** C6, refuted as stated: the If-Match tag is not the stored one, and the
    412 carries a text. *)
Lemma failed_if_match_is_empty_412_fails :
  ~ failed_if_match_is_empty_412 Sample.rt Sample.stale_if_match Sample.env.
Proof.
  intros H.
  destruct (H Sample.thumb_key [] None None) as [_ Hb];
    try (vm_compute; reflexivity).
  vm_compute in Hb. discriminate Hb.
Qed.

(** An If-Match tag that is not the stored one. *)
Lemma failed_if_match_is_412_witness :
  handleRequest Sample.rt Sample.stale_if_match Sample.env
  = ([EvGet Sample.thumb_key
        (must_match_options (conditionals Sample.rt Sample.stale_if_match) None)],
     Return (Response_new (Some "Precondition Failed") 412)).
Proof.
  apply (failed_if_match_is_412 Sample.rt Sample.stale_if_match Sample.env
           Sample.thumb_key [] None None);
    vm_compute; reflexivity.
Defined.

(** The current tag in If-None-Match together with an If-Modified-Since
    date older than the upload, which alone would let the body through. *)
Lemma matching_if_none_match_is_304_witness :
  handleRequest Sample.rt Sample.current_etag_old_date Sample.env
  = ([EvGet Sample.thumb_key
        (none_match_options (conditionals Sample.rt Sample.current_etag_old_date) None)],
     Return (Response_new None 304)).
Proof.
  apply (matching_if_none_match_is_304 Sample.rt Sample.current_etag_old_date Sample.env
           Sample.thumb_key [] None None);
    vm_compute; reflexivity.
Defined.

(** A private object whose origin answers the HEAD probe with 200: the
    four bytes of the object are served with its metadata. *)
Lemma existing_object_is_served_witness :
  handleRequest Sample.rt Sample.private_get Sample.env
  = ([EvHead "api/assets/77ff/thumbnail"; EvFetch (probe Sample.private_get);
      EvGet "api/assets/77ff/thumbnail" {| onlyIf := None; range := None |}],
     Normal
       {| status := 200;
          resp_body := Some "wxyz";
          resp_headers :=
            [ ("accept-ranges", "bytes");
              ("access-control-allow-origin", "*");
              ("etag", Str.quoted "f00d");
              ("cache-control", "private, max-age=60");
              ("expires", "");
              ("last-modified", "Wed, 21 Oct 2015 07:28:00 GMT");
              ("content-encoding", "");
              ("content-type", "image/png");
              ("content-language", "");
              ("content-disposition", "");
              ("content-range", "");
              ("content-length", "4") ] |}).
Proof.
  apply (existing_object_is_served Sample.rt Sample.private_get Sample.env
           "api/assets/77ff/thumbnail" [] None None (R2.with_body Sample.secret None));
    [vm_compute; reflexivity | vm_compute; reflexivity | vm_compute; reflexivity |].
  right. exists {| status := 200; resp_body := None;
                   resp_headers := [("content-type", "image/png")] |}.
  split; [vm_compute; reflexivity | left; reflexivity].
Defined.

(** * Further properties of the handler *)

Section Further.

Context (rt : Runtime).

(** ** Requests that are not cacheable *)


(** X2: a request that is not cacheable costs one request to the origin,
    the incoming request itself, and no store call; the answer is the
    origin's, unchanged, or a 500 carrying the message of the error when
    the origin cannot be reached. *)
Theorem bypass_is_verbatim request env :
  deriveKey rt request env = ([], Normal None) ->
  default_fetch rt request env
  = ([EvFetch request],
     match fetch rt request with
     | Value r => r
     | Raised e => Response_new (Some e) 500
     end).
Proof.
  intros H. unfold default_fetch, handleRequest.
  rewrite (bind_Normal _ _ _ _ H). unfold do_fetch. simpl.
  destruct (fetch rt request); reflexivity.
Qed.

(** X3: a path that cannot be percent-decoded is answered 500 with the
    message of the error, whatever the method and the patterns, and nothing
    is sent to the store or to the origin. *)
Theorem undecodable_path_is_500 request env re reP msg :
  RegExp_new rt (IMAGE_REGEX env) = Value re ->
  RegExp_new rt (IMAGE_REGEX_POST env) = Value reP ->
  decodeURIComponent rt (pathname (req_url request)) = Raised msg ->
  default_fetch rt request env = ([], Response_new (Some msg) 500).
Proof.
  intros H1 H2 H3. unfold default_fetch, handleRequest, deriveKey, matchPath.
  rewrite H1, H2. simpl. rewrite H3. reflexivity.
Qed.

(** X4: both patterns are compiled for every request, so a POST pattern
    that does not compile makes every request, of any method and path,
    answer 500 with the message of the error and without any effect. *)
Theorem invalid_post_pattern_is_500 request env re msg :
  RegExp_new rt (IMAGE_REGEX env) = Value re ->
  RegExp_new rt (IMAGE_REGEX_POST env) = Raised msg ->
  default_fetch rt request env = ([], Response_new (Some msg) 500).
Proof.
  intros H1 H2. unfold default_fetch, handleRequest, deriveKey, matchPath.
  rewrite H1, H2. reflexivity.
Qed.

(** ** The cache key *)

Lemma searchParams_has_insert before after n v w :
  n <> w ->
  searchParams_has (before ++ (n, v) :: after)%list w
  = searchParams_has (before ++ after)%list w.
Proof.
  intros Hne. unfold searchParams_has. rewrite !existsb_app. simpl.
  destruct (String.eqb_spec n w); [contradiction | reflexivity].
Qed.

Lemma searchParams_get_insert before after n v w :
  n <> w ->
  searchParams_get (before ++ (n, v) :: after)%list w
  = searchParams_get (before ++ after)%list w.
Proof.
  intros Hne. unfold searchParams_get. rewrite !filter_app, filter_cons. simpl.
  destruct (String.eqb_spec n w); [contradiction | reflexivity].
Qed.

Lemma paramsSuffix_insert env u before after n v :
  ~ In n (whitelist env) ->
  searchParams u = (before ++ after)%list ->
  paramsSuffix rt env
    {| host := host u; pathname := pathname u;
       searchParams := (before ++ (n, v) :: after)%list |}
  = paramsSuffix rt env u.
Proof.
  intros Hn Hq. unfold paramsSuffix, whitelisted, whitelist in *. simpl. rewrite Hq.
  assert (E : forall l, ~ In n l ->
    flat_map (fun w =>
      if searchParams_has (before ++ (n, v) :: after)%list w
      then [(w, nullish (searchParams_get (before ++ (n, v) :: after)%list w) "")]
      else []) l
    = flat_map (fun w =>
      if searchParams_has (before ++ after)%list w
      then [(w, nullish (searchParams_get (before ++ after)%list w) "")]
      else []) l).
  { induction l as [| w l IH]; intros Hl; [reflexivity |]. simpl.
    assert (n <> w) by (intros ->; apply Hl; left; reflexivity).
    rewrite searchParams_has_insert, searchParams_get_insert by assumption.
    rewrite IH; [reflexivity |]. intros Hin. apply Hl. right. exact Hin. }
  rewrite (E _ Hn). reflexivity.
Qed.

(** X5: a query parameter whose name is not on the whitelist does not
    change the cache key, wherever it stands in the query. *)
Theorem key_ignores_other_parameters request env before after n v :
  ~ In n (whitelist env) ->
  searchParams (req_url request) = (before ++ after)%list ->
  deriveKey rt (Request_with_query request (before ++ (n, v) :: after)%list) env
  = deriveKey rt request env.
Proof.
  intros Hn Hq. unfold deriveKey.
  change (matchPath rt (Request_with_query request (before ++ (n, v) :: after)%list) env)
    with (matchPath rt request env).
  apply bind_ext. intros result. cbn [req_method Request_with_query].
  destruct (negb _); [reflexivity |]. unfold cacheKey.
  change (URL_set_host (req_url (Request_with_query request
                                   (before ++ (n, v) :: after)%list)) (IMAGE_HOST env))
    with {| host := host (URL_set_host (req_url request) (IMAGE_HOST env));
            pathname := pathname (URL_set_host (req_url request) (IMAGE_HOST env));
            searchParams := (before ++ (n, v) :: after)%list |}.
  rewrite (paramsSuffix_insert env _ before after n v Hn); [reflexivity | exact Hq].
Qed.

(** X6: the key depends on the request through its URL and through
    whether its method is POST: a HEAD has the key of the GET of the same
    URL, and headers and body play no part. *)
Theorem key_of_head_is_key_of_get r1 r2 env :
  req_url r1 = req_url r2 ->
  req_method r1 = "GET" -> req_method r2 = "HEAD" ->
  deriveKey rt r1 env = deriveKey rt r2 env.
Proof.
  intros Hu H1 H2. unfold deriveKey, matchPath. rewrite Hu, H1, H2. reflexivity.
Qed.

(** ** Entity-tags *)

Lemma trimEnd_quote s :
  Str.trimEnd (s +:+ String Str.dquote "") = s +:+ String Str.dquote "".
Proof.
  induction s as [| c r IH]; [reflexivity |].
  change (Str.trimEnd (String c r +:+ String Str.dquote ""))
    with (if Str.is_space c && String.eqb (Str.trimEnd (r +:+ String Str.dquote "")) ""
          then "" else String c (Str.trimEnd (r +:+ String Str.dquote ""))).
  rewrite IH.
  assert (E : String.eqb (r +:+ String Str.dquote "") "" = false)
    by (destruct r; reflexivity).
  rewrite E, andb_false_r. reflexivity.
Qed.

Lemma dropLastQuote_quote s : Str.dropLastQuote (s +:+ String Str.dquote "") = s.
Proof.
  induction s as [| c r IH]; [reflexivity |].
  destruct r as [| c' r']; [reflexivity |].
  change (Str.dropLastQuote (String c (String c' r') +:+ String Str.dquote ""))
    with (String c (Str.dropLastQuote (String c' r' +:+ String Str.dquote ""))).
  rewrite IH. reflexivity.
Qed.

(** X7: the helper of line 63 undoes the quoting of an entity-tag: any
    text between two double quotes is read back as that text. *)
Theorem getHeaderEtag_quoted_any s : getHeaderEtag (Some (Str.quoted s)) = Some s.
Proof.
  unfold getHeaderEtag, Str.trim, Str.quoted.
  change (Str.trimStart (String Str.dquote (s +:+ String Str.dquote "")))
    with (String Str.dquote (s +:+ String Str.dquote "")).
  change (String Str.dquote (s +:+ String Str.dquote ""))
    with ((String Str.dquote s) +:+ String Str.dquote "").
  rewrite trimEnd_quote.
  change (Str.stripQuotes (String Str.dquote s +:+ String Str.dquote ""))
    with (Str.dropLastQuote (s +:+ String Str.dquote "")).
  rewrite dropLastQuote_quote. reflexivity.
Qed.

(** ** The request of a miss *)

Lemma filter_bool {A} (f : A -> bool) (l : list A) :
  filter (fun x => Is_true (f x)) l = List.filter f l.
Proof.
  induction l as [| a l IH]; [reflexivity |].
  rewrite filter_cons. simpl. rewrite IH.
  destruct (f a); [rewrite decide_True by exact I | rewrite decide_False by (intros [])];
    reflexivity.
Qed.

Lemma filter_name_after_delete (h : Headers) d n :
  filter (fun p => String.eqb (fst p) n)
         (filter (fun p => negb (String.eqb (fst p) d)) h)
  = if String.eqb n d then [] else filter (fun p => String.eqb (fst p) n) h.
Proof.
  rewrite (filter_bool (fun p : string * string => negb (String.eqb (fst p) d))).
  rewrite !(filter_bool (fun p : string * string => String.eqb (fst p) n)).
  induction h as [| [a b] t IH].
  - destruct (String.eqb n d); reflexivity.
  - simpl. destruct (String.eqb a d) eqn:Ead; simpl.
    + rewrite IH. destruct (String.eqb n d) eqn:End; [reflexivity |].
      apply String.eqb_eq in Ead. subst a. rewrite String.eqb_sym, End. reflexivity.
    + destruct (String.eqb a n) eqn:Ean; [| exact IH].
      rewrite IH. apply String.eqb_eq in Ean. subst a. rewrite Ead. reflexivity.
Qed.

Lemma Headers_get_delete h d n :
  Headers_get (Headers_delete h d) n
  = if String.eqb n d then None else Headers_get h n.
Proof.
  unfold Headers_get, Headers_delete. rewrite filter_name_after_delete.
  destruct (String.eqb n d); reflexivity.
Qed.

(** X8: the request sent to the origin on a miss has lost its if-match,
    if-none-match and range headers and nothing else: every other header
    reads as on the incoming request, and so do the URL, the method, the
    body and the redirect mode. *)
Theorem stripped_request request n :
  Headers_get (req_headers (stripped request)) n
  = (if String.eqb n "if-match" || String.eqb n "if-none-match" || String.eqb n "range"
     then None else Headers_get (req_headers request) n)
  /\ req_url (stripped request) = req_url request
  /\ req_method (stripped request) = req_method request
  /\ req_body (stripped request) = req_body request
  /\ req_redirect (stripped request) = req_redirect request.
Proof.
  split; [| repeat split].
  unfold stripped. cbn [req_headers Request_with_headers].
  rewrite !Headers_get_delete.
  destruct (String.eqb n "range"), (String.eqb n "if-none-match"),
    (String.eqb n "if-match"); reflexivity.
Qed.

(** ** If-Range with an entity-tag *)

(** X9: for an If-Range token that is not a date, the range is kept
    exactly when the token is the quoted entity-tag of the object and does
    not start with the weak prefix. *)
Theorem if_range_tag_keeps_range_iff f r token :
  token <> "" ->
  Date_parse rt token = None ->
  applyIfRange rt (Some f) (Some r) (Some token) = Some r
  <-> Str.startsWith token "W/" = false /\ token = httpEtag f.
Proof.
  intros Hne Hd. rewrite (applyIfRange_spec _ _ _ _ Hne), Hd. cbn [andb].
  destruct (Str.startsWith token "W/"); cbn [orb].
  - split; [discriminate | intros [H _]; discriminate H].
  - destruct (String.eqb_spec token (httpEtag f)); cbn [negb].
    + split; auto.
    + split; [discriminate | intros [_ H]; contradiction].
Qed.

(** ** The stages in sequence *)

Lemma bind_assoc {A B C} (m : M A) (f : A -> M B) (g : B -> M C) :
  bind (bind m f) g = bind m (fun a => bind (f a) g).
Proof.
  destruct m as [l [a | r | e]]; simpl; auto.
  destruct (f a) as [l1 [b | r | e]]; simpl; auto.
  destruct (g b) as [l2 c]. rewrite app_assoc. reflexivity.
Qed.

Lemma bind_snd {A B} (m : M A) (f : A -> M B) :
  snd (bind m f)
  = match snd m with
    | Normal a => snd (f a)
    | Return r => Return r
    | Throw e => Throw e
    end.
Proof. destruct m as [l [a | r | e]]; simpl; auto. destruct (f a); reflexivity. Qed.

Lemma bind_fst {A B} (m : M A) (f : A -> M B) :
  fst (bind m f)
  = (fst m ++ match snd m with
              | Normal a => fst (f a)
              | _ => []
              end)%list.
Proof.
  destruct m as [l [a | r | e]]; simpl; rewrite ?app_nil_r; auto.
  destruct (f a); reflexivity.
Qed.

(** A cacheable request goes through the range stage, the two groups of
    conditions and the response, each stage seeing the object of the one
    before and all of them the range of the first. *)
Lemma serve_stages request env key c :
  serve rt request env key c
  = (resolved <- rangePhase rt request env key c;;
     file <- checkMustMatch env key (ifMatch c) (ifUnmodifiedSince c)
               (fst resolved) (snd resolved);;
     file <- checkMustNotMatch env key (ifNoneMatch c) (ifModifiedSince c)
               file (snd resolved);;
     respond rt request env key file (snd resolved)).
Proof.
  unfold serve, mustNotMatchPhase, mustMatchPhase.
  rewrite !bind_assoc. apply bind_ext. intros res.
  rewrite !bind_assoc. apply bind_ext. intros f1.
  rewrite bind_ret. cbn [fst snd].
  rewrite !bind_assoc. apply bind_ext. intros f2.
  rewrite bind_ret. reflexivity.
Qed.

(** What each stage completes with: an object the bucket answered with,
    or the canned response of the stage. *)
Lemma resolveRange_completes request env key :
  match snd (resolveRange rt request env key) with
  | Normal res => from_bucket (CACHE_BUCKET env) key (fst res)
  | Return r => r = Response_new (Some "Range Not Satisfiable") 416
  | Throw _ => False
  end.
Proof.
  unfold resolveRange.
  destruct (String.eqb _ "GET"); [| exact I].
  destruct (Headers_get _ "range") as [h |]; [| exact I].
  destruct (Str.truthy h); [| exact I].
  unfold R2_head. simpl.
  destruct (head (CACHE_BUCKET env) key) as [f |] eqn:Hh; [| exact I].
  destruct (parseRange rt (size f) h) as [| | ty [| r [| r' l]]]; simpl; auto.
  destruct (String.eqb ty "bytes"); simpl; auto.
  destruct (size f =? range_end r + 1); simpl; left; exact Hh.
Qed.

Lemma rangePhase_completes request env key c :
  match snd (rangePhase rt request env key c) with
  | Normal res => from_bucket (CACHE_BUCKET env) key (fst res)
  | Return r => r = Response_new (Some "Range Not Satisfiable") 416
  | Throw _ => False
  end.
Proof.
  unfold rangePhase. rewrite bind_snd.
  pose proof (resolveRange_completes request env key) as H.
  destruct (snd (resolveRange rt request env key)); simpl; auto.
Qed.

Lemma checkMustMatch_completes env key im ius file range :
  from_bucket (CACHE_BUCKET env) key file ->
  match snd (checkMustMatch env key im ius file range) with
  | Normal f => from_bucket (CACHE_BUCKET env) key f
  | Return r => r = Response_new (Some "Precondition Failed") 412
  | Throw _ => False
  end.
Proof.
  intros Hf. unfold checkMustMatch.
  destruct (_ || _); [| exact Hf].
  unfold R2_get. simpl.
  destruct (get (CACHE_BUCKET env) key _) as [g |] eqn:Hg; simpl; [| reflexivity].
  destruct (body g); simpl; [| reflexivity].
  right. eexists. exact Hg.
Qed.

Lemma checkMustNotMatch_completes env key inm ims file range :
  from_bucket (CACHE_BUCKET env) key file ->
  match snd (checkMustNotMatch env key inm ims file range) with
  | Normal f => from_bucket (CACHE_BUCKET env) key f
  | Return r => r = Response_new None 304
  | Throw _ => False
  end.
Proof.
  intros Hf. unfold checkMustNotMatch.
  destruct (Str.truthy_opt inm); cbn [orb].
  - unfold R2_get. simpl.
    destruct (get (CACHE_BUCKET env) key _) as [g |] eqn:Hg; simpl; [| reflexivity].
    destruct (body g); simpl; [| reflexivity].
    right. eexists. exact Hg.
  - destruct (truthy_num ims); [| exact Hf].
    unfold R2_get. simpl.
    destruct (get (CACHE_BUCKET env) key _) as [g |] eqn:Hg; simpl; [| reflexivity].
    destruct (body g); simpl; [| reflexivity].
    right. eexists. exact Hg.
Qed.

Lemma revalidated_completes request f :
  match snd (revalidated rt request f) with
  | Normal _ => True
  | Return _ => False
  | Throw e => fetch rt (probe request) = Raised e
  end.
Proof.
  unfold revalidated, do_fetch, probe.
  destruct (negb (is_private f)); simpl; [exact I |].
  destruct (fetch rt (Request_with_method request "HEAD" manual)) eqn:Hp; simpl;
    [exact I | reflexivity].
Qed.

Lemma hit_outcome env key f range :
  from_bucket (CACHE_BUCKET env) key (Some f) ->
  exists g,
    from_bucket (CACHE_BUCKET env) key (Some g)
    /\ snd (file' <- (if negb (hasBody (Some f)) then
                        got <- R2_get (CACHE_BUCKET env) key
                                 {| onlyIf := None; range := range |};;
                        ret (match got with Some g => g | None => f end)
                      else ret f);;
            ret (storeResponse rt env file' range))
       = Normal (storeResponse rt env g range).
Proof.
  intros Hb. rewrite bind_snd.
  destruct (negb (hasBody (Some f))).
  - unfold R2_get. simpl.
    destruct (get (CACHE_BUCKET env) key _) as [g |] eqn:Hg; simpl.
    + exists g. split; [right; eexists; exact Hg | reflexivity].
    + exists f. split; [exact Hb | reflexivity].
  - simpl. exists f. split; [exact Hb | reflexivity].
Qed.

Lemma respond_completes request env key file range :
  from_bucket (CACHE_BUCKET env) key file ->
  classified rt request env key (snd (respond rt request env key file range)).
Proof.
  intros Hf. unfold respond. rewrite bind_snd.
  assert (Hfile : exists file', from_bucket (CACHE_BUCKET env) key file'
            /\ snd (match file with
                     | Some _ => ret file
                     | None => R2_head (CACHE_BUCKET env) key
                     end) = Normal file').
  { destruct file as [g |].
    - exists (Some g). split; [exact Hf | reflexivity].
    - exists (head (CACHE_BUCKET env) key). split; [| reflexivity].
      destruct (head (CACHE_BUCKET env) key) eqn:Hh; [left; exact Hh | exact I]. }
  destruct Hfile as [file' [Hb Hs]].
  match goal with |- context [snd ?m] =>
    replace (snd m) with (@Normal (option R2Object) file') end.
  destruct file' as [f |].
  - rewrite bind_snd.
    pose proof (revalidated_completes request f) as Hr.
    destruct (snd (revalidated rt request f)) as [[|] | r | e];
      [| | contradiction | exact Hr].
    + destruct (hit_outcome env key f range Hb) as [g [Hg ->]].
      left. exists g, range. split; [exact Hg | reflexivity].
    + simpl. right. right. right. left. reflexivity.
  - destruct range.
    + simpl. right. right. right. left. reflexivity.
    + rewrite missResponse_spec.
      destruct (fetch rt (stripped request)) as [r | e] eqn:Hr; simpl.
      * right. exact Hr.
      * right. right. right. right. reflexivity.
Qed.

(** X10: a cacheable request completes in one of four ways only: with one
    of the five canned responses (416, 412, 304, 400, 521), with a response
    assembled from an object the bucket answered with under the key of the
    request, with the answer of the origin to the request stripped of its
    three headers, or with the error the HEAD probe threw. *)
Theorem cacheable_request_is_classified request env key :
  deriveKey rt request env = ([], Normal (Some key)) ->
  classified rt request env key (snd (handleRequest rt request env)).
Proof.
  intros Hk. rewrite (handleRequest_cacheable _ _ _ _ Hk), serve_stages.
  rewrite bind_snd.
  pose proof (rangePhase_completes request env key (conditionals rt request)) as H0.
  destruct (snd (rangePhase rt request env key (conditionals rt request)))
    as [[f0 rg] | r | e]; [| left; exact H0 | contradiction].
  cbn [fst snd] in *. rewrite bind_snd.
  pose proof (checkMustMatch_completes env key (ifMatch (conditionals rt request))
                (ifUnmodifiedSince (conditionals rt request)) f0 rg H0) as H1.
  destruct (snd (checkMustMatch _ _ _ _ _ _)) as [f1 | r | e];
    [| right; left; exact H1 | contradiction].
  rewrite bind_snd.
  pose proof (checkMustNotMatch_completes env key (ifNoneMatch (conditionals rt request))
                (ifModifiedSince (conditionals rt request)) f1 rg H1) as H2.
  destruct (snd (checkMustNotMatch _ _ _ _ _ _)) as [f2 | r | e];
    [| right; right; left; exact H2 | contradiction].
  apply respond_completes. exact H2.
Qed.

(** ** What the handler asks of the store and of the origin *)

Lemma rangePhase_log (P : Event -> Prop) request env key c :
  P (EvHead key) -> Forall P (fst (rangePhase rt request env key c)).
Proof.
  intros H. unfold rangePhase. apply bind_log_Forall.
  - apply resolveRange_log, H.
  - intros res. constructor.
Qed.

(** A property of the events of a cacheable request follows from the
    property for the reads of the store and for the events of the last
    stage, which is entered with an object of the bucket or with none. *)
Lemma serve_log_staged (P : Event -> Prop) request env key c :
  P (EvHead key) ->
  (forall o, P (EvGet key o)) ->
  (forall file range,
     from_bucket (CACHE_BUCKET env) key file ->
     Forall P (fst (respond rt request env key file range))) ->
  Forall P (fst (serve rt request env key c)).
Proof.
  intros Hh Hg Hr. rewrite serve_stages, bind_fst.
  apply Forall_app. split; [apply rangePhase_log, Hh |].
  pose proof (rangePhase_completes request env key c) as H0.
  destruct (snd (rangePhase rt request env key c)) as [[f0 rg] | r | e];
    try constructor.
  cbn [fst snd] in *. rewrite bind_fst.
  apply Forall_app. split; [apply checkMustMatch_log, Hg |].
  pose proof (checkMustMatch_completes env key (ifMatch c) (ifUnmodifiedSince c)
                f0 rg H0) as H1.
  destruct (snd (checkMustMatch _ _ _ _ _ _)) as [f1 | r | e]; try constructor.
  rewrite bind_fst.
  apply Forall_app. split; [apply checkMustNotMatch_log; intros; apply Hg |].
  pose proof (checkMustNotMatch_completes env key (ifNoneMatch c) (ifModifiedSince c)
                f1 rg H1) as H2.
  destruct (snd (checkMustNotMatch _ _ _ _ _ _)) as [f2 | r | e]; try constructor.
  apply Hr, H2.
Qed.

(** X11: every call a cacheable request makes to the bucket, a probe, a
    read or the write handed to waitUntil, names the one key derived from
    the request. *)
Theorem store_calls_share_the_key request env key :
  deriveKey rt request env = ([], Normal (Some key)) ->
  Forall (fun e => store_key e = None \/ store_key e = Some key)
         (fst (handleRequest rt request env)).
Proof.
  intros Hk. rewrite (handleRequest_cacheable _ _ _ _ Hk).
  apply serve_log_staged.
  - right. reflexivity.
  - intros o. right. reflexivity.
  - intros file range _. apply respond_log; intros; simpl; auto.
Qed.

(** X12: whatever a cacheable request hands over to be stored is the body
    and the headers of a successful answer (status 200 to 299) with a body
    that the origin gave to the request stripped of its if-match,
    if-none-match and range headers, under the key of the request, and the
    method is GET or POST.  A canned response, a store response or the
    answer to a HEAD request is never stored. *)
Theorem only_successful_origin_answers_are_stored request env key :
  deriveKey rt request env = ([], Normal (Some key)) ->
  Forall (populated_from_origin rt request key) (fst (handleRequest rt request env)).
Proof.
  intros Hk. rewrite (handleRequest_cacheable _ _ _ _ Hk).
  apply serve_log_staged; [exact I | intros; exact I |].
  intros file range _. unfold respond.
  apply bind_log_Forall.
  { destruct file; [constructor | apply R2_head_log; exact I]. }
  intros [f |].
  - apply bind_log_Forall.
    + unfold revalidated. destruct (negb (is_private f)); [constructor |].
      apply bind_log_Forall; [apply do_fetch_log; exact I | intros; constructor].
    + intros [|]; [| constructor].
      apply bind_log_Forall; [| intros; constructor].
      destruct (negb (hasBody (Some f))); [| constructor].
      apply bind_log_Forall; [apply R2_get_log; exact I | intros; constructor].
  - destruct range; [constructor |].
    rewrite missResponse_spec.
    destruct (fetch rt (stripped request)) as [r | e] eqn:Hr; simpl;
      [| repeat constructor].
    constructor; [exact I |].
    unfold populate.
    destruct (_ && _) eqn:Ec; [| constructor].
    apply andb_prop in Ec. destruct Ec as [Ec Eb].
    apply andb_prop in Ec. destruct Ec as [Em Eo].
    constructor; [| constructor]. split; [reflexivity |]. split.
    + apply orb_prop in Em.
      destruct Em as [Em | Em]; [left | right]; apply String.eqb_eq; exact Em.
    + exists r. destruct (resp_body r); [| discriminate].
      repeat split; auto.
Qed.

(** X13: when the bucket holds an object under the key and no object it
    answers with under that key is private, a cacheable request is settled
    between the worker and the bucket: the origin is not contacted and
    nothing is handed over to be stored. *)
Theorem public_object_keeps_the_origin_out request env key f :
  deriveKey rt request env = ([], Normal (Some key)) ->
  head (CACHE_BUCKET env) key = Some f ->
  (forall g, from_bucket (CACHE_BUCKET env) key (Some g) -> is_private g = false) ->
  Forall store_read (fst (handleRequest rt request env)).
Proof.
  intros Hk Hh Hpub. rewrite (handleRequest_cacheable _ _ _ _ Hk).
  apply serve_log_staged; [exact I | intros; exact I |].
  intros file range Hb. unfold respond.
  rewrite bind_fst. apply Forall_app. split.
  { destruct file; [constructor | apply R2_head_log; exact I]. }
  assert (Hfile : exists g, from_bucket (CACHE_BUCKET env) key (Some g)
            /\ snd (match file with
                     | Some _ => ret file
                     | None => R2_head (CACHE_BUCKET env) key
                     end) = Normal (Some g)).
  { destruct file as [g |].
    - exists g. split; [exact Hb | reflexivity].
    - exists f. split; [left; exact Hh |]. simpl. rewrite Hh. reflexivity. }
  destruct Hfile as [g [Hg Hs]].
  match goal with |- context [snd ?m] =>
    replace (snd m) with (@Normal (option R2Object) (Some g)) end.
  unfold revalidated. rewrite (Hpub g Hg). cbn [negb].
  rewrite bind_ret.
  apply bind_log_Forall; [| intros; constructor].
  destruct (negb (hasBody (Some g))); [| constructor].
  apply bind_log_Forall; [apply R2_get_log; exact I | intros; constructor].
Qed.

(** ** The last stage in detail *)

Lemma revalidated_outcome request f :
  revalidated rt request f
  = if is_private f then
      ([EvFetch (probe request)],
       match fetch rt (probe request) with
       | Value p => Normal ((status p <? 300) || (status p =? 304))
       | Raised e => Throw e
       end)
    else ([], Normal true).
Proof.
  unfold revalidated, do_fetch, probe.
  destruct (is_private f); simpl; [| reflexivity].
  destruct (fetch rt (Request_with_method request "HEAD" manual)); reflexivity.
Qed.

(** The last stage, entered with an object of the bucket, or with none
    and then without a range. *)
Lemma respond_outcome request env key file range :
  from_bucket (CACHE_BUCKET env) key file ->
  (range <> None -> file <> None) ->
  match snd (respond rt request env key file range) with
  | Normal r =>
      (exists g, from_bucket (CACHE_BUCKET env) key (Some g)
                 /\ r = storeResponse rt env g range)
      \/ (range = None /\ fetch rt (stripped request) = Value r)
  | Return r =>
      (r = Response_new (Some "Bad Request") 400
       /\ exists f p, from_bucket (CACHE_BUCKET env) key (Some f)
                      /\ is_private f = true
                      /\ fetch rt (probe request) = Value p
                      /\ 300 <= status p /\ status p <> 304)
      \/ r = Response_new None 521
  | Throw e =>
      exists f, from_bucket (CACHE_BUCKET env) key (Some f)
                /\ is_private f = true
                /\ fetch rt (probe request) = Raised e
  end.
Proof.
  intros Hf Hrange. unfold respond. rewrite bind_snd.
  assert (Hfile : exists file', from_bucket (CACHE_BUCKET env) key file'
            /\ (range <> None -> file' <> None)
            /\ snd (match file with
                     | Some _ => ret file
                     | None => R2_head (CACHE_BUCKET env) key
                     end) = Normal file').
  { destruct file as [g |].
    - exists (Some g). repeat split; [exact Hf | discriminate].
    - exists (head (CACHE_BUCKET env) key). repeat split.
      + destruct (head (CACHE_BUCKET env) key) eqn:Hh; [left; exact Hh | exact I].
      + intros Hr. destruct (Hrange Hr). reflexivity. }
  destruct Hfile as [file' [Hb [Hrange' Hs]]].
  match goal with |- context [snd ?m] =>
    replace (snd m) with (@Normal (option R2Object) file') end.
  destruct file' as [f |].
  - rewrite bind_snd, revalidated_outcome.
    destruct (hit_outcome env key f range Hb) as [g [Hg Hhit]].
    destruct (is_private f) eqn:Hpriv; cbn [snd].
    + destruct (fetch rt (probe request)) as [p | e] eqn:Hp.
      * destruct ((status p <? 300) || (status p =? 304)) eqn:Hst.
        -- rewrite Hhit. left. exists g. split; [exact Hg | reflexivity].
        -- left. split; [reflexivity |]. exists f, p.
           apply orb_false_elim in Hst. destruct Hst as [H1 H2].
           apply Z.ltb_ge in H1. apply Z.eqb_neq in H2. auto.
      * exists f. auto.
    + rewrite Hhit. left. exists g. split; [exact Hg | reflexivity].
  - destruct range as [rg |]; [destruct Hrange'; [discriminate | reflexivity] |].
    rewrite missResponse_spec.
    destruct (fetch rt (stripped request)) as [r | e] eqn:Hr; simpl.
    + right. split; reflexivity.
    + right. reflexivity.
Qed.

(** The stages before the last hand on a range only together with an
    object of the bucket. *)
Lemma applyIfRange_cases file range token :
  applyIfRange rt file range token = None \/ applyIfRange rt file range token = range.
Proof.
  unfold applyIfRange.
  destruct file; [| right; reflexivity].
  destruct range; [| right; reflexivity].
  destruct token as [t |]; [| right; reflexivity].
  destruct (Str.truthy t); [| right; reflexivity].
  destruct (match Date_parse rt t with Some d => _ | None => _ end);
    [| right; reflexivity].
  destruct (_ || _); [left | right]; reflexivity.
Qed.

Lemma rangePhase_outcome request env key c :
  match snd (rangePhase rt request env key c) with
  | Normal res => from_bucket (CACHE_BUCKET env) key (fst res)
                  /\ (snd res <> None -> fst res <> None)
  | Return r => r = Response_new (Some "Range Not Satisfiable") 416
  | Throw _ => False
  end.
Proof.
  pose proof (rangePhase_completes request env key c) as H0.
  destruct (snd (rangePhase rt request env key c)) as [[f0 rg] | r | e] eqn:E; auto.
  split; [exact H0 |]. cbn [fst snd].
  unfold rangePhase in E. rewrite bind_snd in E.
  destruct (snd (resolveRange rt request env key)) as [[f1 rg1] | r | e] eqn:E1;
    try discriminate.
  simpl in E. injection E as <- <-.
  assert (Hres : rg1 <> None -> f1 <> None).
  { revert E1. unfold resolveRange.
    destruct (String.eqb _ "GET"); [| simpl; intros [= <- <-]; auto].
    destruct (Headers_get _ "range") as [h |]; [| simpl; intros [= <- <-]; auto].
    destruct (Str.truthy h); [| simpl; intros [= <- <-]; auto].
    unfold R2_head. simpl.
    destruct (head (CACHE_BUCKET env) key) as [f |]; [| simpl; intros [= <- <-]; auto].
    intros E1 _. destruct f1; [discriminate |].
    destruct (parseRange rt (size f) h) as [| | ty [| r [| r' l]]]; simpl in E1;
      try discriminate.
    destruct (String.eqb ty "bytes"); simpl in E1; try discriminate.
    destruct (size f =? range_end r + 1); simpl in E1; discriminate. }
  intros Hr. apply Hres. intros ->.
  destruct (applyIfRange_cases f1 None (ifRange c)) as [H | H]; contradiction.
Qed.

Lemma checkMustMatch_outcome env key im ius file range :
  from_bucket (CACHE_BUCKET env) key file /\ (range <> None -> file <> None) ->
  match snd (checkMustMatch env key im ius file range) with
  | Normal f => from_bucket (CACHE_BUCKET env) key f /\ (range <> None -> f <> None)
  | Return r => r = Response_new (Some "Precondition Failed") 412
  | Throw _ => False
  end.
Proof.
  intros [Hf Hr].
  pose proof (checkMustMatch_completes env key im ius file range Hf) as H.
  destruct (snd (checkMustMatch env key im ius file range)) as [f | r | e] eqn:E; auto.
  split; [exact H |]. revert E. unfold checkMustMatch.
  destruct (_ || _); [| simpl; intros [= <-]; exact Hr].
  unfold R2_get. simpl.
  destruct (get (CACHE_BUCKET env) key _) as [g |]; simpl; [| discriminate].
  destruct (body g); simpl; [| discriminate].
  intros [= <-] _. discriminate.
Qed.

Lemma checkMustNotMatch_outcome env key inm ims file range :
  from_bucket (CACHE_BUCKET env) key file /\ (range <> None -> file <> None) ->
  match snd (checkMustNotMatch env key inm ims file range) with
  | Normal f => from_bucket (CACHE_BUCKET env) key f /\ (range <> None -> f <> None)
  | Return r => r = Response_new None 304
  | Throw _ => False
  end.
Proof.
  intros [Hf Hr].
  pose proof (checkMustNotMatch_completes env key inm ims file range Hf) as H.
  destruct (snd (checkMustNotMatch env key inm ims file range)) as [f | r | e] eqn:E;
    auto.
  split; [exact H |]. revert E. unfold checkMustNotMatch.
  destruct (_ || _); [| simpl; intros [= <-]; exact Hr].
  assert (Hget : forall o, snd (file' <- R2_get (CACHE_BUCKET env) key o;;
                               if negb (hasBody file')
                               then return_ (Response_new None 304)
                               else ret file') = Normal f -> f <> None).
  { intros o. unfold R2_get. simpl.
    destruct (get (CACHE_BUCKET env) key o) as [g |]; simpl; [| discriminate].
    destruct (body g); simpl; [| discriminate].
    intros [= <-]. discriminate. }
  destruct (Str.truthy_opt inm); intros E _; eapply Hget; exact E.
Qed.

(** X14: the worker answers its own 400 (line 171) only after a private
    object of the bucket was found and the origin answered the HEAD probe
    with a status that is neither below 300 nor 304.  The other way into
    line 171, a range without an object, cannot be taken: a range is only
    ever set together with an object, and an object is only replaced by
    one that has a body. *)
Theorem own_400_needs_a_refused_probe request env key :
  deriveKey rt request env = ([], Normal (Some key)) ->
  snd (handleRequest rt request env) = Return (Response_new (Some "Bad Request") 400) ->
  exists f p,
    from_bucket (CACHE_BUCKET env) key (Some f)
    /\ is_private f = true
    /\ fetch rt (probe request) = Value p
    /\ 300 <= status p /\ status p <> 304.
Proof.
  intros Hk. rewrite (handleRequest_cacheable _ _ _ _ Hk), serve_stages.
  rewrite bind_snd.
  pose proof (rangePhase_outcome request env key (conditionals rt request)) as H0.
  destruct (snd (rangePhase rt request env key (conditionals rt request)))
    as [[f0 rg] | r | e]; [| subst r; discriminate | contradiction].
  cbn [fst snd] in *. rewrite bind_snd.
  pose proof (checkMustMatch_outcome env key (ifMatch (conditionals rt request))
                (ifUnmodifiedSince (conditionals rt request)) f0 rg H0) as H1.
  destruct (snd (checkMustMatch _ _ _ _ _ _)) as [f1 | r | e];
    [| subst r; discriminate | contradiction].
  rewrite bind_snd.
  pose proof (checkMustNotMatch_outcome env key (ifNoneMatch (conditionals rt request))
                (ifModifiedSince (conditionals rt request)) f1 rg H1) as H2.
  destruct (snd (checkMustNotMatch _ _ _ _ _ _)) as [f2 | r | e];
    [| subst r; discriminate | contradiction].
  destruct H2 as [Hb Hr].
  pose proof (respond_outcome request env key f2 rg Hb Hr) as H3.
  destruct (snd (respond rt request env key f2 rg)) as [r | r | e]; try discriminate.
  intros [= ->].
  destruct H3 as [[_ H3] | H3]; [exact H3 | discriminate].
Qed.

(** ** Private objects *)

Lemma respond_private request env key file range f :
  match file with Some _ => file | None => head (CACHE_BUCKET env) key end = Some f ->
  is_private f = true ->
  (forall p, fetch rt (probe request) = Value p -> 300 <= status p /\ status p <> 304) ->
  respond rt request env key file range
  = ((match file with Some _ => [] | None => [EvHead key] end
      ++ [EvFetch (probe request)])%list,
     match fetch rt (probe request) with
     | Value _ => Return (Response_new (Some "Bad Request") 400)
     | Raised e => Throw e
     end).
Proof.
  intros Hf Hpriv Hp. unfold respond.
  assert (Hgate : (pass <- revalidated rt request f;;
                   if pass then
                     file' <- (if negb (hasBody (Some f)) then
                                 got <- R2_get (CACHE_BUCKET env) key
                                          {| onlyIf := None; range := range |};;
                                 ret (match got with Some g => g | None => f end)
                               else ret f);;
                     ret (storeResponse rt env file' range)
                   else return_ (Response_new (Some "Bad Request") 400))
                  = ([EvFetch (probe request)],
                     match fetch rt (probe request) with
                     | Value _ => Return (Response_new (Some "Bad Request") 400)
                     | Raised e => Throw e
                     end)).
  { rewrite revalidated_outcome, Hpriv.
    destruct (fetch rt (probe request)) as [p | e] eqn:E; [| reflexivity].
    destruct (Hp p eq_refl) as [H1 H2].
    apply Z.ltb_ge in H1. apply Z.eqb_neq in H2. rewrite H1, H2. reflexivity. }
  destruct file as [f0 |]; simpl in Hf.
  - injection Hf as ->. rewrite bind_ret. exact Hgate.
  - assert (Hh : R2_head (CACHE_BUCKET env) key = ([EvHead key], Normal (Some f)))
      by (unfold R2_head; simpl; rewrite Hf; reflexivity).
    rewrite (bind_Normal _ _ _ _ Hh), Hgate. reflexivity.
Qed.

(** X15: for a cacheable request that passed the range and conditional
    stages and whose object is private, an origin that answers the HEAD
    probe with a status of 300 or more other than 304 makes the worker
    answer 400 Bad Request; the object is not read and the request itself
    is not sent to the origin. *)
Theorem refused_probe_is_400 request env key l file range f p :
  deriveKey rt request env = ([], Normal (Some key)) ->
  mustNotMatchPhase rt request env key (conditionals rt request)
  = (l, Normal (file, range)) ->
  match file with Some _ => file | None => head (CACHE_BUCKET env) key end = Some f ->
  is_private f = true ->
  fetch rt (probe request) = Value p ->
  300 <= status p ->
  status p <> 304 ->
  default_fetch rt request env
  = ((l ++ match file with Some _ => [] | None => [EvHead key] end
        ++ [EvFetch (probe request)])%list,
     Response_new (Some "Bad Request") 400).
Proof.
  intros Hk Hph Hf Hpriv Hp H1 H2. unfold default_fetch.
  rewrite (handleRequest_cacheable _ _ _ _ Hk). unfold serve.
  rewrite (bind_Normal _ _ _ _ Hph). cbn [fst snd].
  rewrite (respond_private _ _ _ _ _ _ Hf Hpriv).
  - rewrite Hp. reflexivity.
  - intros q Hq. rewrite Hp in Hq. injection Hq as <-. auto.
Qed.

(** X16: under the same conditions, a HEAD probe that throws (the origin
    cannot be reached) is not caught by the handler: the worker answers
    500 with the message of the error as body, where the same failure of
    the request of a miss is answered 521. *)
Theorem failed_probe_is_500 request env key l file range f msg :
  deriveKey rt request env = ([], Normal (Some key)) ->
  mustNotMatchPhase rt request env key (conditionals rt request)
  = (l, Normal (file, range)) ->
  match file with Some _ => file | None => head (CACHE_BUCKET env) key end = Some f ->
  is_private f = true ->
  fetch rt (probe request) = Raised msg ->
  default_fetch rt request env
  = ((l ++ match file with Some _ => [] | None => [EvHead key] end
        ++ [EvFetch (probe request)])%list,
     Response_new (Some msg) 500).
Proof.
  intros Hk Hph Hf Hpriv Hp. unfold default_fetch.
  rewrite (handleRequest_cacheable _ _ _ _ Hk). unfold serve.
  rewrite (bind_Normal _ _ _ _ Hph). cbn [fst snd].
  rewrite (respond_private _ _ _ _ _ _ Hf Hpriv).
  - rewrite Hp. reflexivity.
  - intros q Hq. rewrite Hp in Hq. discriminate.
Qed.

(** ** Ranges *)

Lemma resolveRange_accepted request env key rangeHeader f r :
  req_method request = "GET" ->
  Headers_get (req_headers request) "range" = Some rangeHeader ->
  rangeHeader <> "" ->
  head (CACHE_BUCKET env) key = Some f ->
  parseRange rt (size f) rangeHeader = RangeArray "bytes" [r] ->
  resolveRange rt request env key
  = ([EvHead key], Normal (Some f, Some (resolved (size f) r))).
Proof.
  intros Hm Hr Hne Hh Hp. unfold resolveRange, resolved. rewrite Hm, Hr. simpl.
  unfold Str.truthy. destruct (String.eqb_spec rangeHeader ""); [contradiction |].
  simpl. rewrite Hh, Hp. simpl.
  destruct (size f =? range_end r + 1); reflexivity.
Qed.

Lemma content_range_of_resolved env g fileSize r :
  size g = fileSize ->
  Headers_get (resp_headers (storeResponse rt env g (Some (resolved fileSize r))))
              "content-range"
  = Some ("bytes " +:+ Str.ofZ (range_start r) +:+ "-" +:+ Str.ofZ (range_end r)
          +:+ "/" +:+ Str.ofZ fileSize)
  /\ Headers_get (resp_headers (storeResponse rt env g (Some (resolved fileSize r))))
                 "content-length"
     = Some (Str.ofZ (range_end r - range_start r + 1)).
Proof.
  intros Hs. unfold Headers_get. simpl. rewrite Hs.
  unfold getRangeHeader, resolved.
  destruct (fileSize =? range_end r + 1) eqn:E.
  - apply Z.eqb_eq in E.
    replace (fileSize - (fileSize - range_start r)) with (range_start r) by lia.
    replace (fileSize - 1) with (range_end r) by lia.
    replace (fileSize - range_start r) with (range_end r - range_start r + 1) by lia.
    split; reflexivity.
  - replace (range_start r + (range_end r - range_start r + 1) - 1)
      with (range_end r) by lia.
    split; reflexivity.
Qed.

(** X17: a cacheable GET with no usable conditional header and a Range
    header that parses, for the stored size, to the single byte range from
    start to end, asked of a public object, is answered 206 with the
    content-range [bytes start-end/size] and the content-length
    [end - start + 1], whether line 83 turned the range into a suffix or
    into an offset and a length, provided the object read has the size
    the probe reported.  The store is probed once and read at most once. *)
Theorem single_range_is_206 request env key rangeHeader f r :
  deriveKey rt request env = ([], Normal (Some key)) ->
  req_method request = "GET" ->
  Headers_get (req_headers request) "range" = Some rangeHeader ->
  rangeHeader <> "" ->
  head (CACHE_BUCKET env) key = Some f ->
  parseRange rt (size f) rangeHeader = RangeArray "bytes" [r] ->
  ifRange (conditionals rt request) = None ->
  Str.truthy_opt (ifMatch (conditionals rt request))
  || truthy_num (ifUnmodifiedSince (conditionals rt request)) = false ->
  Str.truthy_opt (ifNoneMatch (conditionals rt request))
  || truthy_num (ifModifiedSince (conditionals rt request)) = false ->
  is_private f = false ->
  size (served_object env key f (Some (resolved (size f) r))) = size f ->
  let answer := default_fetch rt request env in
  fst answer
  = EvHead key :: (if hasBody (Some f) then []
                   else [EvGet key (plain_options (Some (resolved (size f) r)))])
  /\ status (snd answer) = 206
  /\ Headers_get (resp_headers (snd answer)) "content-range"
     = Some ("bytes " +:+ Str.ofZ (range_start r) +:+ "-" +:+ Str.ofZ (range_end r)
             +:+ "/" +:+ Str.ofZ (size f))
  /\ Headers_get (resp_headers (snd answer)) "content-length"
     = Some (Str.ofZ (range_end r - range_start r + 1)).
Proof.
  intros Hk Hm Hr Hne Hh Hp Hir Hmm Hnm Hpub Hsize.
  assert (E : handleRequest rt request env
              = (EvHead key :: (if hasBody (Some f) then []
                   else [EvGet key (plain_options (Some (resolved (size f) r)))]),
                 Normal (storeResponse rt env
                           (served_object env key f (Some (resolved (size f) r)))
                           (Some (resolved (size f) r))))).
  { assert (Hrp : rangePhase rt request env key (conditionals rt request)
                  = ([EvHead key], Normal (Some f, Some (resolved (size f) r)))).
    { unfold rangePhase.
      rewrite (resolveRange_accepted _ _ _ _ _ _ Hm Hr Hne Hh Hp), Hir.
      reflexivity. }
    rewrite (handleRequest_cacheable _ _ _ _ Hk), serve_stages.
    rewrite (bind_Normal _ _ _ _ Hrp). cbn [fst snd].
    unfold checkMustMatch. rewrite Hmm, bind_ret.
    unfold checkMustNotMatch. rewrite Hnm, bind_ret.
    rewrite (respond_hit rt request env key (Some f) _ f eq_refl (or_introl Hpub)).
    rewrite Hpub. reflexivity. }
  unfold default_fetch. rewrite E. cbn [fst snd].
  split; [reflexivity |]. split; [reflexivity |].
  apply content_range_of_resolved, Hsize.
Qed.

(** X18: a cacheable request whose method is not GET is served without
    regard to a Range header: every read of the store asks for the whole
    content, the worker does not answer 416, and a response it builds from
    the store is the one for no range, status 200. *)
Theorem only_get_honours_range request env key :
  deriveKey rt request env = ([], Normal (Some key)) ->
  req_method request <> "GET" ->
  Forall whole_read (fst (handleRequest rt request env))
  /\ match snd (handleRequest rt request env) with
     | Normal resp =>
         (exists g, from_bucket (CACHE_BUCKET env) key (Some g)
                    /\ resp = storeResponse rt env g None)
         \/ fetch rt (stripped request) = Value resp
     | Return resp => resp <> Response_new (Some "Range Not Satisfiable") 416
     | Throw _ => True
     end.
Proof.
  intros Hk Hm. rewrite (handleRequest_cacheable _ _ _ _ Hk), serve_stages.
  assert (E : rangePhase rt request env key (conditionals rt request)
              = ret (None, None)).
  { unfold rangePhase, resolveRange.
    destruct (String.eqb_spec (req_method request) "GET"); [contradiction |].
    rewrite bind_ret. reflexivity. }
  rewrite E, bind_ret. cbn [fst snd].
  set (c := conditionals rt request).
  split.
  - apply bind_log_Forall; [apply checkMustMatch_log; reflexivity |].
    intros f1. apply bind_log_Forall;
      [apply checkMustNotMatch_log; intros; reflexivity |].
    intros f2. apply respond_log; try exact I; [reflexivity | intros; exact I].
  - rewrite bind_snd.
    assert (H0 : from_bucket (CACHE_BUCKET env) key None
                 /\ (@None ParsedRange <> None -> @None R2Object <> None))
      by (split; [exact I | intros H; exact (False_ind _ (H eq_refl))]).
    pose proof (checkMustMatch_outcome env key (ifMatch c) (ifUnmodifiedSince c)
                  None None H0) as H1.
    destruct (snd (checkMustMatch _ _ _ _ _ _)) as [f1 | r | e];
      [| subst r; discriminate | exact I].
    rewrite bind_snd.
    pose proof (checkMustNotMatch_outcome env key (ifNoneMatch c) (ifModifiedSince c)
                  f1 None H1) as H2.
    destruct (snd (checkMustNotMatch _ _ _ _ _ _)) as [f2 | r | e];
      [| subst r; discriminate | exact I].
    destruct H2 as [Hb Hr].
    pose proof (respond_outcome request env key f2 None Hb Hr) as H3.
    destruct (snd (respond rt request env key f2 None)) as [r | r | e]; [| | exact I].
    + destruct H3 as [H3 | [_ H3]]; [left | right]; exact H3.
    + destruct H3 as [[-> _] | ->]; discriminate.
Qed.

(** ** The order of the query parameters *)

Lemma searchParams_has_perm q q' w :
  Permutation q q' -> searchParams_has q w = searchParams_has q' w.
Proof.
  unfold searchParams_has. induction 1 as [| x l l' _ IH | x y l | l l' l'' _ IH1 _ IH2].
  - reflexivity.
  - simpl. rewrite IH. reflexivity.
  - simpl. destruct (String.eqb (fst x) w), (String.eqb (fst y) w); reflexivity.
  - rewrite IH1. exact IH2.
Qed.

Lemma searchParams_get_perm q q' w :
  Permutation q q' -> List.NoDup (map fst q) ->
  searchParams_get q w = searchParams_get q' w.
Proof.
  unfold searchParams_get.
  rewrite !(filter_bool (fun p : string * string => String.eqb (fst p) w)).
  induction 1 as [| x l l' Hp IH | x y l | l l' l'' Hp1 IH1 Hp2 IH2]; intros Hnd.
  - reflexivity.
  - simpl. destruct (String.eqb (fst x) w) eqn:Ex; [reflexivity |].
    apply IH. inversion Hnd. assumption.
  - simpl. destruct (String.eqb (fst x) w) eqn:Ex, (String.eqb (fst y) w) eqn:Ey;
      try reflexivity.
    apply String.eqb_eq in Ex, Ey. inversion Hnd as [| a t Hin _]. subst.
    exfalso. apply Hin. left. congruence.
  - rewrite IH1 by exact Hnd. apply IH2.
    eapply Permutation.Permutation_NoDup; [apply Permutation_map; exact Hp1 | exact Hnd].
Qed.

(** X19: when no name occurs twice in the query, the key does not depend
    on the order in which the request lists its parameters: the whitelist
    fixes the order in which they enter the key. *)
Theorem key_ignores_parameter_order request env q q' :
  Permutation q q' ->
  List.NoDup (map fst q) ->
  deriveKey rt (Request_with_query request q') env
  = deriveKey rt (Request_with_query request q) env.
Proof.
  intros Hp Hnd. unfold deriveKey.
  change (matchPath rt (Request_with_query request q') env)
    with (matchPath rt (Request_with_query request q) env).
  apply bind_ext. intros result. cbn [req_method Request_with_query].
  destruct (negb _); [reflexivity |]. do 2 f_equal.
  unfold cacheKey, paramsSuffix, whitelisted. f_equal. cbn [searchParams URL_set_host req_url].
  assert (E : forall l,
    flat_map (fun w =>
      if searchParams_has q' w
      then [(w, nullish (searchParams_get q' w) "")] else []) l
    = flat_map (fun w =>
      if searchParams_has q w
      then [(w, nullish (searchParams_get q w) "")] else []) l).
  { induction l as [| w l IH]; [reflexivity |]. simpl.
    rewrite <- (searchParams_has_perm q q' w Hp).
    rewrite <- (searchParams_get_perm q q' w Hp Hnd).
    rewrite IH. reflexivity. }
  rewrite E. reflexivity.
Qed.

(** ** Conditions that override one another *)

(** X20: a usable If-None-Match overrides If-Modified-Since completely:
    whatever the date header holds, the request is served as it is
    without it. *)
Theorem if_none_match_overrides_if_modified_since request env key c d :
  Str.truthy_opt (ifNoneMatch c) = true ->
  serve rt request env key (with_ifModifiedSince c d) = serve rt request env key c.
Proof.
  intros H. rewrite !serve_stages.
  change (rangePhase rt request env key (with_ifModifiedSince c d))
    with (rangePhase rt request env key c).
  apply bind_ext. intros res. cbn [ifMatch ifUnmodifiedSince with_ifModifiedSince].
  apply bind_ext. intros f1.
  cbn [ifNoneMatch ifModifiedSince with_ifModifiedSince].
  unfold checkMustNotMatch. rewrite H. reflexivity.
Qed.

(** ** How often the origin is asked *)

Lemma fetched_bind {A B} (m : M A) (f : A -> M B) :
  fetched (fst (bind m f))
  = (fetched (fst m) ++ match snd m with
                        | Normal a => fetched (fst (f a))
                        | _ => []
                        end)%list.
Proof.
  rewrite bind_fst. unfold fetched. rewrite flat_map_app.
  destruct (snd m); reflexivity.
Qed.

Lemma store_read_fetched l : Forall store_read l -> fetched l = [].
Proof.
  induction 1 as [| e l He _ IH]; [reflexivity |].
  destruct e; simpl in *; try contradiction; exact IH.
Qed.

Lemma respond_fetched request env key file range :
  (length (fetched (fst (respond rt request env key file range))) <= 1)%nat.
Proof.
  unfold respond. rewrite fetched_bind.
  assert (Hfile : exists file',
            (match file with
             | Some _ => ret file
             | None => R2_head (CACHE_BUCKET env) key
             end)
            = (match file with Some _ => [] | None => [EvHead key] end, Normal file')).
  { destruct file; eexists; reflexivity. }
  destruct Hfile as [file' Hfile].
  match goal with |- context [fst ?m] => replace m with
    (match file with Some _ => [] | None => [EvHead key] end, @Normal (option R2Object) file')
  end.
  cbn [fst snd].
  replace (fetched (match file with Some _ => [] | None => [EvHead key] end))
    with (@nil Request) by (destruct file; reflexivity).
  cbn [app].
  destruct file' as [f |].
  - rewrite fetched_bind, revalidated_outcome.
    match goal with
    | |- context [match _ with Normal a => fetched (fst (@?K a)) | _ => _ end] =>
        assert (Hhit : forall pass : bool, fetched (fst (K pass)) = [])
    end.
    { intros [|]; [| reflexivity]. apply store_read_fetched.
      apply bind_log_Forall; [| intros; constructor].
      destruct (negb (hasBody (Some f))); [| constructor].
      apply bind_log_Forall; [apply R2_get_log; exact I | intros; constructor]. }
    cbv beta in Hhit.
    destruct (is_private f); cbn [fst snd].
    + destruct (fetch rt (probe request)); [rewrite Hhit |]; simpl; lia.
    + specialize (Hhit true). cbv iota in Hhit. rewrite Hhit. simpl. lia.
  - destruct range; [simpl; lia |].
    rewrite missResponse_spec.
    destruct (fetch rt (stripped request)) as [r | e]; cbn [fst]; [| simpl; lia].
    unfold populate. destruct (_ && _); simpl; lia.
Qed.

(** X21: the worker asks the origin at most once for a request it
    handles: a request that is not cacheable is forwarded, a private
    object is probed, a miss is fetched, and no two of these happen for
    the same request. *)
Theorem at_most_one_origin_request request env :
  (length (fetched (fst (default_fetch rt request env))) <= 1)%nat.
Proof.
  assert (E : fst (default_fetch rt request env) = fst (handleRequest rt request env)).
  { unfold default_fetch. destruct (handleRequest rt request env) as [l [r | r | e]];
      reflexivity. }
  rewrite E. unfold handleRequest. rewrite fetched_bind, deriveKey_log.
  cbn [fetched flat_map app].
  destruct (snd (deriveKey rt request env)) as [[key |] | r | e]; try (simpl; lia).
  - rewrite serve_stages, fetched_bind.
    rewrite (store_read_fetched _ (rangePhase_log store_read request env key _ I)).
    cbn [app].
    destruct (snd (rangePhase _ _ _ _ _)) as [[f0 rg] | r | e]; try (simpl; lia).
    cbn [fst snd]. rewrite fetched_bind.
    rewrite (store_read_fetched _
               (checkMustMatch_log store_read env key _ _ f0 rg I)).
    cbn [app].
    destruct (snd (checkMustMatch _ _ _ _ _ _)) as [f1 | r | e]; try (simpl; lia).
    rewrite fetched_bind.
    rewrite (store_read_fetched _
               (checkMustNotMatch_log store_read env key _ _ f1 rg
                  (fun _ => I) (fun _ _ => I))).
    cbn [app].
    destruct (snd (checkMustNotMatch _ _ _ _ _ _)) as [f2 | r | e]; try (simpl; lia).
    apply respond_fetched.
  - unfold do_fetch. simpl. destruct (fetch rt request); simpl; lia.
Qed.

End Further.

(** ** The further properties on the sample deployment *)


Lemma bypass_is_verbatim_witness :
  default_fetch Sample.rt Sample.bypassed Sample.env
  = ([EvFetch Sample.bypassed],
     {| status := 200; resp_body := Some "IMAGE";
        resp_headers := [("content-type", "image/png")] |}).
Proof.
  apply (bypass_is_verbatim Sample.rt Sample.bypassed Sample.env).
  vm_compute. reflexivity.
Defined.

(** A percent sign that starts no escape. *)
Lemma undecodable_path_is_500_witness :
  default_fetch Sample.rt Sample2.undecodable Sample.env
  = ([], Response_new (Some "URI malformed") 500).
Proof.
  eapply (undecodable_path_is_500 Sample.rt Sample2.undecodable Sample.env);
    vm_compute; reflexivity.
Defined.

(** A GET under an environment whose POST pattern is an open group. *)
Lemma invalid_post_pattern_is_500_witness :
  default_fetch Sample.rt Sample.cached Sample2.broken_env
  = ([], Response_new (Some "Invalid regular expression: /(/") 500).
Proof.
  eapply (invalid_post_pattern_is_500 Sample.rt Sample.cached Sample2.broken_env);
    vm_compute; reflexivity.
Defined.

Lemma key_ignores_other_parameters_witness :
  deriveKey Sample.rt
    (Request_with_query Sample.cached ([] ++ ("cachebust", "17") :: [])%list) Sample.env
  = deriveKey Sample.rt Sample.cached Sample.env.
Proof.
  apply (key_ignores_other_parameters Sample.rt Sample.cached Sample.env
           [] [] "cachebust" "17").
  - vm_compute. intros [H | [H | []]]; discriminate.
  - reflexivity.
Defined.

Lemma key_of_head_is_key_of_get_witness :
  deriveKey Sample.rt Sample.cached Sample.env
  = deriveKey Sample.rt Sample2.head_cached Sample.env.
Proof.
  apply (key_of_head_is_key_of_get Sample.rt Sample.cached Sample2.head_cached Sample.env);
    reflexivity.
Defined.

(** The current entity-tag of the sample object as If-Range. *)
Lemma if_range_tag_keeps_range_iff_witness :
  applyIfRange Sample.rt (Some Sample.thumb) (Some (OffsetLength 2 4))
    (Some (Str.quoted "abc123")) = Some (OffsetLength 2 4)
  <-> Str.startsWith (Str.quoted "abc123") "W/" = false
      /\ Str.quoted "abc123" = httpEtag Sample.thumb.
Proof.
  apply (if_range_tag_keeps_range_iff Sample.rt Sample.thumb (OffsetLength 2 4)
           (Str.quoted "abc123")).
  - intros H. vm_compute in H. discriminate.
  - vm_compute. reflexivity.
Defined.

Lemma cacheable_request_is_classified_witness :
  classified Sample.rt Sample.cached Sample.env Sample.thumb_key
    (snd (handleRequest Sample.rt Sample.cached Sample.env)).
Proof.
  apply (cacheable_request_is_classified Sample.rt Sample.cached Sample.env
           Sample.thumb_key).
  vm_compute. reflexivity.
Defined.

Lemma store_calls_share_the_key_witness :
  Forall (fun e => store_key e = None \/ store_key e = Some Sample.thumb_key)
         (fst (handleRequest Sample.rt Sample.cached Sample.env)).
Proof.
  apply (store_calls_share_the_key Sample.rt Sample.cached Sample.env Sample.thumb_key).
  vm_compute. reflexivity.
Defined.

(** A miss: the answer of the origin is stored. *)
Lemma only_successful_origin_answers_are_stored_witness :
  Forall (populated_from_origin Sample.rt
            (Sample.request "GET" "/api/assets/99ee/thumbnail" [])
            "api/assets/99ee/thumbnail")
         (fst (handleRequest Sample.rt
                 (Sample.request "GET" "/api/assets/99ee/thumbnail" []) Sample.env)).
Proof.
  apply (only_successful_origin_answers_are_stored Sample.rt
           (Sample.request "GET" "/api/assets/99ee/thumbnail" []) Sample.env
           "api/assets/99ee/thumbnail").
  vm_compute. reflexivity.
Defined.

Lemma public_object_keeps_the_origin_out_witness :
  Forall store_read (fst (handleRequest Sample.rt Sample2.ranged Sample.env)).
Proof.
  apply (public_object_keeps_the_origin_out Sample.rt Sample2.ranged Sample.env
           Sample.thumb_key (R2.with_body Sample.thumb None)).
  - vm_compute. reflexivity.
  - vm_compute. reflexivity.
  - intros g [H | [o H]].
    + vm_compute in H. injection H as <-. reflexivity.
    + change (get (CACHE_BUCKET Sample.env) Sample.thumb_key o)
        with (if match onlyIf o with
                 | Some c => R2.holds c Sample.thumb
                 | None => true
                 end
              then Some (R2.with_body Sample.thumb
                           (option_map (R2.slice (range o)) (body Sample.thumb)))
              else Some (R2.with_body Sample.thumb None)) in H.
      destruct (match onlyIf o with Some c => R2.holds c Sample.thumb | None => true end);
        injection H as <-; reflexivity.
Defined.

(** The origin answers the probe of the private sample object with 403. *)
Lemma own_400_needs_a_refused_probe_witness :
  exists f p,
    from_bucket (CACHE_BUCKET Sample.env) "api/assets/77ff/thumbnail" (Some f)
    /\ is_private f = true
    /\ fetch Sample2.forbidding (probe Sample.private_get) = Value p
    /\ 300 <= status p /\ status p <> 304.
Proof.
  apply (own_400_needs_a_refused_probe Sample2.forbidding Sample.private_get Sample.env
           "api/assets/77ff/thumbnail"); vm_compute; reflexivity.
Defined.

Lemma refused_probe_is_400_witness :
  default_fetch Sample2.forbidding Sample.private_get Sample.env
  = ([EvHead "api/assets/77ff/thumbnail"; EvFetch (probe Sample.private_get)],
     Response_new (Some "Bad Request") 400).
Proof.
  apply (refused_probe_is_400 Sample2.forbidding Sample.private_get Sample.env
           "api/assets/77ff/thumbnail" [] None None (R2.with_body Sample.secret None)
           {| status := 403; resp_body := None; resp_headers := [] |});
    try (vm_compute; reflexivity); simpl; lia.
Defined.

Lemma failed_probe_is_500_witness :
  default_fetch Sample2.unreachable Sample.private_get Sample.env
  = ([EvHead "api/assets/77ff/thumbnail"; EvFetch (probe Sample.private_get)],
     Response_new (Some "Network connection lost.") 500).
Proof.
  apply (failed_probe_is_500 Sample2.unreachable Sample.private_get Sample.env
           "api/assets/77ff/thumbnail" [] None None (R2.with_body Sample.secret None)
           "Network connection lost."); vm_compute; reflexivity.
Defined.

(** Bytes 2 to 5 of the ten bytes of the sample object. *)
Lemma single_range_is_206_witness :
  let answer := default_fetch Sample.rt Sample2.ranged Sample.env in
  fst answer
  = [EvHead Sample.thumb_key;
     EvGet Sample.thumb_key (plain_options (Some (OffsetLength 2 4)))]
  /\ status (snd answer) = 206
  /\ Headers_get (resp_headers (snd answer)) "content-range" = Some "bytes 2-5/10"
  /\ Headers_get (resp_headers (snd answer)) "content-length" = Some "4".
Proof.
  apply (single_range_is_206 Sample.rt Sample2.ranged Sample.env Sample.thumb_key
           "bytes=2-5" (R2.with_body Sample.thumb None)
           {| range_start := 2; range_end := 5 |});
    try (vm_compute; reflexivity).
  intros H. discriminate.
Defined.

(** A HEAD request that carries two ranges. *)
Lemma only_get_honours_range_witness :
  Forall whole_read (fst (handleRequest Sample.rt Sample2.head_ranged Sample.env))
  /\ match snd (handleRequest Sample.rt Sample2.head_ranged Sample.env) with
     | Normal resp =>
         (exists g, from_bucket (CACHE_BUCKET Sample.env) Sample.thumb_key (Some g)
                    /\ resp = storeResponse Sample.rt Sample.env g None)
         \/ fetch Sample.rt (stripped Sample2.head_ranged) = Value resp
     | Return resp => resp <> Response_new (Some "Range Not Satisfiable") 416
     | Throw _ => True
     end.
Proof.
  apply (only_get_honours_range Sample.rt Sample2.head_ranged Sample.env Sample.thumb_key).
  - vm_compute. reflexivity.
  - intros H. vm_compute in H. discriminate.
Defined.

Lemma key_ignores_parameter_order_witness :
  deriveKey Sample.rt
    (Request_with_query Sample.cached [("key", "k"); ("size", "preview")]) Sample.env
  = deriveKey Sample.rt
      (Request_with_query Sample.cached [("size", "preview"); ("key", "k")]) Sample.env.
Proof.
  apply (key_ignores_parameter_order Sample.rt Sample.cached Sample.env
           [("size", "preview"); ("key", "k")] [("key", "k"); ("size", "preview")]).
  - apply perm_swap.
  - constructor; [intros [H | []]; discriminate |].
    constructor; [intros [] | constructor].
Defined.

Lemma if_none_match_overrides_if_modified_since_witness :
  serve Sample.rt Sample.two_if_none_match Sample.env Sample.thumb_key
    (with_ifModifiedSince (conditionals Sample.rt Sample.two_if_none_match)
       (Some 1483228800000))
  = serve Sample.rt Sample.two_if_none_match Sample.env Sample.thumb_key
      (conditionals Sample.rt Sample.two_if_none_match).
Proof.
  apply (if_none_match_overrides_if_modified_since Sample.rt Sample.two_if_none_match
           Sample.env Sample.thumb_key
           (conditionals Sample.rt Sample.two_if_none_match) (Some 1483228800000)).
  vm_compute. reflexivity.
Defined.
